(** * TransFLUENCE: the Ableton -> FL Studio bridge, embedded in Rocq

    A shallow embedding of the parts of the converter that its specification
    makes claims about:

    - [core/transproj.py]: the intermediate project model;
    - [converters/plugin_mapper.py]: the static device and value-range tables;
    - [converters/plugin_state_generator.py]: the per-plugin blob encoders;
    - [writers/flstudio_writer.py]: the byte-exact writer of the event stream;
    - [parsers/ableton_parser.py]: the clip collection of [_parse_track].

    Python values are modelled as follows.  A [float] is a binary64 number
    (Rocq's primitive floats, the same IEEE 754 arithmetic as CPython's); an
    [int] is a [Z]; a [str] is the list of its Unicode code points; [bytes]
    and [bytearray] are lists of integers in [0, 256); a raised exception is
    the [Raise] case of [result]. *)

From Stdlib Require Import ZArith NArith String Ascii Bool Lia Floats List.
From Stdlib Require Import DecimalString.
From Equations Require Import Equations.
Import ListNotations.
Set Warnings "-inexact-float,-register-all".
Open Scope string_scope.
Open Scope list_scope.
Open Scope Z_scope.

(* ===================================================================== *)
(** * The Python runtime the code relies on                               *)
(* ===================================================================== *)

Module Py.

(** The exception classes the modelled code can raise. *)
Inductive exn : Type :=
| ValueError
| OverflowError
| TypeError
| ZeroDivisionError
| StructError
| UnicodeEncodeError.

Inductive result (A : Type) : Type :=
| Ok (a : A)
| Raise (e : exn).

Arguments Ok {A} a.
Arguments Raise {A} e.

Definition bind {A B : Type} (m : result A) (k : A -> result B) : result B :=
  match m with
  | Ok a => k a
  | Raise e => Raise e
  end.

Notation "x <- m ;; k" := (bind m (fun x => k))
  (at level 61, m at next level, right associativity).
Notation "' pat <- m ;; k" := (bind m (fun x => match x with pat => k end))
  (at level 61, pat pattern, m at next level, right associativity).

Definition is_ok {A : Type} (m : result A) : bool :=
  match m with Ok _ => true | Raise _ => false end.

(** [for x in l: acc = body(acc, x)], leaving at the first exception. *)
Fixpoint for_each {A S : Type} (body : S -> A -> result S) (l : list A) (acc : S)
  : result S :=
  match l with
  | [] => Ok acc
  | x :: l' => bind (body acc x) (for_each body l')
  end.

(** [for i, x in enumerate(l, start)]. *)
Fixpoint for_enumerate {A S : Type} (body : S -> Z -> A -> result S)
  (start : Z) (l : list A) (acc : S) : result S :=
  match l with
  | [] => Ok acc
  | x :: l' => bind (body acc start x) (for_enumerate body (start + 1) l')
  end.

(** ** Bytes *)

Definition bytes : Type := list Z.

Definition is_byte (v : Z) : bool := (0 <=? v) && (v <? 256).

(** [bytearray.append(v)] and [bytearray[i] = v]: the value must be in
    [range(0, 256)]. *)
Definition byte_of_int (v : Z) : result Z :=
  if is_byte v then Ok v else Raise ValueError.

Definition append (data : bytes) (v : Z) : result bytes :=
  bind (byte_of_int v) (fun b => Ok (data ++ [b])).

(** Little-endian digits of [v] in base 256. *)
Fixpoint le_bytes (n : nat) (v : Z) : bytes :=
  match n with
  | O => []
  | S n' => (v mod 256) :: le_bytes n' (v / 256)
  end.

(** [struct.pack('<H', v)] and [struct.pack('<I', v)]. *)
Definition pack_H (v : Z) : result bytes :=
  if (0 <=? v) && (v <? 65536) then Ok (le_bytes 2 v) else Raise StructError.

Definition pack_I (v : Z) : result bytes :=
  if (0 <=? v) && (v <? 4294967296) then Ok (le_bytes 4 v) else Raise StructError.

(** ** Floats *)

(** [int(x)]: truncation toward zero; NaN and the infinities raise. *)
Definition int_of_float (x : float) : result Z :=
  match Prim2SF x with
  | S754_zero _ => Ok 0
  | S754_finite s m e =>
      let a := Z.shiftl (Zpos m) e in
      Ok (if s then - a else a)
  | S754_infinity _ => Raise OverflowError
  | S754_nan => Raise ValueError
  end.

(** The implicit [int -> float] conversion of mixed arithmetic: correctly
    rounded, [OverflowError] when the integer is beyond the float range. *)
Definition float_of_int (z : Z) : result float :=
  match binary_normalize prec emax z 0 false with
  | S754_infinity _ => Raise OverflowError
  | sf => Ok (SF2Prim sf)
  end.

(** [x * n] for a float [x] and an int [n]. *)
Definition mul_int (x : float) (n : Z) : result float :=
  bind (float_of_int n) (fun fn => Ok (x * fn)%float).

(** [x / y] on floats: division by zero raises. *)
Definition fdiv (x y : float) : result float :=
  match Prim2SF y with
  | S754_zero _ => Raise ZeroDivisionError
  | _ => Ok (x / y)%float
  end.

Definition is_finite (x : float) : bool :=
  match Prim2SF x with
  | S754_zero _ | S754_finite _ _ _ => true
  | _ => false
  end.

(** [struct.pack('<f', x)]: the double is rounded to binary32 (to nearest,
    ties to even); a finite double beyond the binary32 range raises. *)
Definition binary32_bits (sf : spec_float) : Z :=
  match sf with
  | S754_zero s => if s then 2147483648 else 0
  | S754_infinity s => if s then 4286578688 else 2139095040
  | S754_nan => 2143289344
  | S754_finite s m e =>
      let body :=
        if Zpos m <? 8388608 then Zpos m
        else (e + 150) * 8388608 + (Zpos m - 8388608) in
      if s then 2147483648 + body else body
  end.

Definition pack_f (x : float) : result bytes :=
  match Prim2SF x with
  | S754_finite s m e =>
      match binary_round 24 128 s m e with
      | S754_infinity _ => Raise OverflowError
      | sf => Ok (le_bytes 4 (binary32_bits sf))
      end
  | sf => Ok (le_bytes 4 (binary32_bits sf))
  end.

(** ** Strings *)

(** A [str] is the sequence of its code points. *)
Definition str : Type := list Z.

Definition lit (s : string) : str :=
  map (fun a => Z.of_N (N_of_ascii a)) (list_ascii_of_string s).

(** A bytes literal [b'...']. *)
Definition blit (s : string) : bytes := lit s.

Fixpoint str_eqb (a b : str) : bool :=
  match a, b with
  | [], [] => true
  | x :: a', y :: b' => (x =? y) && str_eqb a' b'
  | _, _ => false
  end.

Definition is_surrogate (c : Z) : bool := (55296 <=? c) && (c <? 57344).

Definition utf8_char (c : Z) : result bytes :=
  if c <? 128 then Ok [c]
  else if c <? 2048 then Ok [192 + c / 64; 128 + c mod 64]
  else if is_surrogate c then Raise UnicodeEncodeError
  else if c <? 65536 then
    Ok [224 + c / 4096; 128 + (c / 64) mod 64; 128 + c mod 64]
  else
    Ok [240 + c / 262144; 128 + (c / 4096) mod 64;
        128 + (c / 64) mod 64; 128 + c mod 64].

Definition utf16le_char (c : Z) : result bytes :=
  if is_surrogate c then Raise UnicodeEncodeError
  else if c <? 65536 then Ok (le_bytes 2 c)
  else
    let c' := c - 65536 in
    Ok (le_bytes 2 (55296 + c' / 1024) ++ le_bytes 2 (56320 + c' mod 1024)).

(** [text.encode(...)]: the characters' encodings, concatenated. *)
Definition encode_with (enc : Z -> result bytes) (text : str) : result bytes :=
  for_each (fun acc c => b <- enc c ;; Ok (acc ++ b)) text [].

Definition encode_utf8 : str -> result bytes := encode_with utf8_char.
Definition encode_utf16le : str -> result bytes := encode_with utf16le_char.

(** [str(n)], as an f-string formats an int. *)
Definition str_of_int (n : Z) : str := lit (NilZero.string_of_int (Z.to_int n)).

(** ** Dictionaries: insertion-ordered, one binding per key *)

Definition dict (V : Type) : Type := list (str * V).

Fixpoint dict_get {V : Type} (d : dict V) (k : str) : option V :=
  match d with
  | [] => None
  | (k', v) :: d' => if str_eqb k k' then Some v else dict_get d' k
  end.

Definition dict_mem {V : Type} (d : dict V) (k : str) : bool :=
  match dict_get d k with Some _ => true | None => false end.

(** [d[k] = v]: an existing key keeps its place. *)
Fixpoint dict_set {V : Type} (d : dict V) (k : str) (v : V) : dict V :=
  match d with
  | [] => [(k, v)]
  | (k', v') :: d' =>
      if str_eqb k k' then (k', v) :: d' else (k', v') :: dict_set d' k v
  end.

(** A dict display [{k1: v1, k2: v2, ...}]. *)
Definition dict_of {V : Type} (items : list (string * V)) : dict V :=
  fold_left (fun d kv => dict_set d (lit (fst kv)) (snd kv)) items [].

(** [len(l)]. *)
Definition len {A : Type} (l : list A) : Z := Z.of_nat (length l).

(** [d.get(k, default)] on an optional entry. *)
Definition get_or {A : Type} (o : option A) (default : A) : A :=
  match o with Some a => a | None => default end.

(** [data.append(int(x * 100))]: a 0.0-1.0 value as a percentage byte. *)
Definition append_percent (data : bytes) (x : float) : result bytes :=
  v <- int_of_float (x * 100)%float ;;
  append data v.

End Py.

Export Py.

(* ===================================================================== *)
(** * core/transproj.py                                                   *)
(* ===================================================================== *)

(** Single MIDI note. *)
Module Note.
Record t : Type := mk {
  position : float;   (* in beats *)
  duration : float;   (* in beats *)
  key : Z;            (* MIDI note *)
  velocity : float    (* 0.0-1.0 *)
}.

(** [(int(self.position * ppq), int(self.duration * ppq))] *)
Definition to_ticks (self : t) (ppq : Z) : result (Z * Z) :=
  p <- mul_int (position self) ppq ;;
  pos_ticks <- int_of_float p ;;
  d <- mul_int (duration self) ppq ;;
  dur_ticks <- int_of_float d ;;
  Ok (pos_ticks, dur_ticks).
End Note.
Definition Note : Type := Note.t.

(** MIDI or audio clip. *)
Module Clip.
Record t : Type := mk {
  name : str;
  start : float;
  duration : float;
  notes : list Note;
  audio_path : str;
  is_midi : bool;
  scene_index : option Z
}.

Definition is_session_clip (self : t) : bool :=
  match scene_index self with Some _ => true | None => false end.
End Clip.
Definition Clip : Type := Clip.t.

(** Plugin/device (instrument or FX). *)
Module Plugin.
Record t : Type := mk {
  name : str;
  manufacturer : str;
  is_instrument : bool;
  device_type : option str;
  vst_id : option str;
  parameters : dict float
}.
End Plugin.
Definition Plugin : Type := Plugin.t.

(** Single pad in a drum rack. *)
Module DrumPad.
Record t : Type := mk {
  index : Z;
  name : str;
  sample_path : str;
  midi_note : Z;
  volume : float;
  pan : float
}.
End DrumPad.
Definition DrumPad : Type := DrumPad.t.

(** Plugin rack/chain. *)
Module Rack.
Record t : Type := mk {
  name : str;
  rack_type : option str;
  plugins : list Plugin;
  drum_pads : list DrumPad
}.

Definition is_drum_rack (self : t) : bool :=
  match drum_pads self with [] => false | _ :: _ => true end.
End Rack.
Definition Rack : Type := Rack.t.

(** Single track (channel). *)
Module Track.
Record t : Type := mk {
  name : str;
  color : Z * Z * Z;
  volume : float;
  pan : float;
  muted : bool;
  solo : bool;
  clips : list Clip;
  instrument : option Plugin;
  effects : list Plugin;
  racks : list Rack
}.

Definition has_midi (self : t) : bool :=
  existsb (fun c => Clip.is_midi c) (clips self).

Definition has_audio (self : t) : bool :=
  existsb (fun c => negb (Clip.is_midi c)) (clips self).

(** [Track(name=name)]: every other field at its declared default. *)
Definition init (name : str) : t :=
  mk name (128, 128, 128) 1.0 0.0 false false [] None [] [].
End Track.
Definition Track : Type := Track.t.

(** The universal project. *)
Module TransProj.
Record t : Type := mk {
  name : str;
  tempo : float;
  ppq : Z;
  tracks : list Track;
  ableton_version : str;
  is_session_view : bool
}.

Definition total_clips (self : t) : Z :=
  fold_left (fun n tr => n + Z.of_nat (length (Track.clips tr))) (tracks self) 0.

Definition total_notes (self : t) : Z :=
  fold_left
    (fun n tr =>
       fold_left (fun n c => n + Z.of_nat (length (Clip.notes c)))
                 (Track.clips tr) n)
    (tracks self) 0.

(** [add_track]: the project after the append, and the track returned. *)
Definition add_track (self : t) (track_name : str) : t * Track :=
  let track := Track.init track_name in
  (mk (name self) (tempo self) (ppq self) (tracks self ++ [track])
      (ableton_version self) (is_session_view self),
   track).

(** [get_track]: [None] unless [0 <= index < len(self.tracks)]. *)
Definition get_track (self : t) (index : Z) : option Track :=
  if (0 <=? index) && (index <? len (tracks self))
  then nth_error (tracks self) (Z.to_nat index)
  else None.
End TransProj.
Definition TransProj : Type := TransProj.t.

(* ===================================================================== *)
(** * converters/plugin_mapper.py                                         *)
(* ===================================================================== *)

Definition ABLETON_TO_FL_INSTRUMENTS : dict str := dict_of [
  ("OriginalSimpler", lit "Sampler");
  ("MultiSampler", lit "DirectWave");
  ("Operator", lit "3xOsc");
  ("Analog", lit "Sytrus");
  ("Electric", lit "3xOsc");
  ("Collision", lit "FPC");
  ("Tension", lit "Sytrus");
  ("Wavetable", lit "Harmor");
  ("DrumSynth", lit "FPC");
  ("InstrumentGroupDevice", lit "Patcher")
].

Definition ABLETON_TO_FL_EFFECTS : dict str := dict_of [
  ("AutoFilter", lit "Fruity Love Philter");
  ("AutoPan", lit "Fruity Stereo Enhancer");
  ("BeatRepeat", lit "Fruity Slicer");
  ("Cabinet", lit "Fruity Guitar Amp");
  ("Chorus", lit "Fruity Chorus");
  ("Compressor", lit "Fruity Compressor");
  ("Delay", lit "Fruity Delay 3");
  ("Distortion", lit "Fruity Fast Dist");
  ("Echo", lit "Fruity Delay 3");
  ("Eq8", lit "Fruity Parametric EQ 2");
  ("EQ Eight", lit "Fruity Parametric EQ 2");
  ("Erosion", lit "Fruity Bitcrusher");
  ("FilterDelay", lit "Fruity Delay 3");
  ("Flanger", lit "Fruity Flanger");
  ("GlueCompressor", lit "Fruity Limiter");
  ("Glue Compressor", lit "Fruity Limiter");
  ("GrainDelay", lit "Fruity Granulizer");
  ("Limiter", lit "Fruity Limiter");
  ("Looper", lit "Fruity Slicer");
  ("Overdrive", lit "Fruity Fast Dist");
  ("Phaser", lit "Fruity Phaser");
  ("PingPongDelay", lit "Fruity Delay 3");
  ("Redux", lit "Fruity Bitcrusher");
  ("Reverb", lit "Fruity Reeverb 2");
  ("Saturator", lit "Fruity Waveshaper");
  ("SimpleDelay", lit "Fruity Delay 3");
  ("Utility", lit "Fruity Balance");
  ("Vocoder", lit "Vocodex");
  ("DrumBuss", lit "Maximus");
  ("Drum Buss", lit "Maximus");
  ("Roar", lit "Distructor");
  ("AudioEffectGroupDevice", lit "Patcher")
].

Definition ABLETON_TO_FL_DRUMS : dict str := dict_of [
  ("DrumGroupDevice", lit "FPC");
  ("DrumSynth", lit "FPC")
].

Definition PARAMETER_MAPPINGS : dict str := dict_of [
  ("Volume", lit "Volume");
  ("Level", lit "Level");
  ("Gain", lit "Gain");
  ("Output", lit "Out");
  ("FilterFreq", lit "CutOff");
  ("Frequency", lit "Frequency");
  ("Cutoff", lit "Cutoff");
  ("FilterRes", lit "Resonance");
  ("Resonance", lit "Resonance");
  ("FilterType", lit "Type");
  ("Attack", lit "ATT");
  ("AttackTime", lit "ATT");
  ("Decay", lit "DEC");
  ("DecayTime", lit "DEC");
  ("Sustain", lit "SUS");
  ("SustainLevel", lit "SUS");
  ("Release", lit "REL");
  ("ReleaseTime", lit "REL");
  ("LfoRate", lit "Speed");
  ("LfoAmount", lit "Depth");
  ("LfoWaveform", lit "Shape");
  ("DryWet", lit "Mix");
  ("Mix", lit "Mix");
  ("Blend", lit "Mix");
  ("Feedback", lit "Feedback");
  ("FeedbackAmount", lit "Feedback");
  ("Rate", lit "Rate");
  ("Speed", lit "Speed");
  ("Depth", lit "Depth");
  ("Amount", lit "Amount");
  ("Intensity", lit "Mod");
  ("DelayTime", lit "Time");
  ("Time", lit "Time");
  ("DelayFeedback", lit "Feedback");
  ("Sync", lit "Sync");
  ("RoomSize", lit "Size");
  ("Size", lit "Size");
  ("DecayTime", lit "Decay");
  ("Damping", lit "Damp");
  ("HighDamp", lit "Damp");
  ("PreDelay", lit "PreDelay");
  ("Threshold", lit "Threshold");
  ("Ratio", lit "Ratio");
  ("Knee", lit "Knee");
  ("MakeupGain", lit "Gain");
  ("Freq", lit "Freq");
  ("Q", lit "Q");
  ("BandGain", lit "Gain");
  ("Drive", lit "Drive");
  ("Bias", lit "Bias");
  ("Shape", lit "Shape")
].

(** Ableton [(min, max)] -> FL Studio [(min, max)]. *)
Definition PARAMETER_RANGES : dict ((Z * Z) * (Z * Z)) := dict_of [
  ("Volume", ((0, 1), (0, 100)));
  ("Pan", ((-1, 1), (0, 100)));
  ("FilterFreq", ((20, 20000), (0, 100)));
  ("Resonance", ((0, 1), (0, 100)));
  ("DryWet", ((0, 1), (0, 100)));
  ("Attack", ((0, 5), (0, 100)));
  ("Decay", ((0, 5), (0, 100)));
  ("Sustain", ((0, 1), (0, 100)));
  ("Release", ((0, 5), (0, 100)))
].

(** The FL Studio plugin lists, by category. *)
Definition FL_PLUGIN_TYPES : dict (list str) := dict_of [
  ("generator",
   map lit ["3xOsc"; "Sytrus"; "Harmor"; "Harmless"; "PoiZone";
            "Sakura"; "Sawer"; "Toxic Biohazard"; "Drumaxx";
            "DirectWave"; "FPC"; "Sampler"; "FLEX"]);
  ("effect",
   map lit ["Fruity Parametric EQ 2"; "Fruity Compressor"; "Fruity Limiter";
            "Fruity Delay 3"; "Fruity Delay Bank"; "Fruity Reeverb 2";
            "Fruity Chorus"; "Fruity Flanger"; "Fruity Phaser";
            "Fruity Fast Dist"; "Fruity Waveshaper"; "Fruity Bitcrusher";
            "Fruity Love Philter"; "Fruity Stereo Enhancer"; "Fruity Balance";
            "Fruity Slicer"; "Fruity Granulizer"; "Vocodex"]);
  ("patcher", map lit ["Patcher"])
].

(** An entry of [RACK_MAPPINGS]; [max_pads] and [note_start] are keys of the
    drum rack's entry only. *)
Record rack_mapping : Type := mk_rack_mapping {
  fl_type : str;
  description : str;
  max_pads : option Z;
  note_start : option Z
}.

(** The arrow of the descriptions, U+2192. *)
Definition arrow : str := [8594].

Definition RACK_MAPPINGS : dict rack_mapping := dict_of [
  ("InstrumentGroupDevice",
   mk_rack_mapping (lit "Patcher")
     (lit "Instrument Rack " ++ arrow ++ lit " Patcher with multiple generators")
     None None);
  ("AudioEffectGroupDevice",
   mk_rack_mapping (lit "Patcher")
     (lit "FX Rack " ++ arrow ++ lit " Patcher with multiple effects")
     None None);
  ("DrumGroupDevice",
   mk_rack_mapping (lit "FPC")
     (lit "Drum Rack " ++ arrow ++ lit " FPC (Fruity Pad Controller)")
     (Some 16) (Some 36))
].

Module PluginMapper.

(** [device_type or ableton_name]: [None] and the empty string are falsy. *)
Definition lookup_name_of (device_type : option str) (ableton_name : str) : str :=
  match device_type with
  | Some (c :: d) => c :: d
  | Some [] | None => ableton_name
  end.

Definition ableton_to_fl (ableton_name : str) (is_instrument : bool)
  (device_type : option str) : str :=
  let lookup_name := lookup_name_of device_type ableton_name in
  (* Check drums first (special case) *)
  match dict_get ABLETON_TO_FL_DRUMS lookup_name with
  | Some fl => fl
  | None =>
      if is_instrument then
        match dict_get ABLETON_TO_FL_INSTRUMENTS lookup_name with
        | Some fl => fl
        | None => lit "Sampler"
        end
      else
        match dict_get ABLETON_TO_FL_EFFECTS lookup_name with
        | Some fl => fl
        | None => ableton_name
        end
  end.

Definition map_parameter_name (param_name : str) : str :=
  match dict_get PARAMETER_MAPPINGS param_name with
  | Some fl => fl
  | None => param_name
  end.

Definition map_parameter_value (param_name : str) (ableton_value : float)
  : result float :=
  match dict_get PARAMETER_RANGES param_name with
  | None => Ok ableton_value
  | Some ((able_min, able_max), (fl_min, fl_max)) =>
      (* Normalize to 0-1 *)
      lo <- float_of_int able_min ;;
      width <- float_of_int (able_max - able_min) ;;
      normalized <- fdiv (ableton_value - lo)%float width ;;
      (* Scale to FL range *)
      span <- float_of_int (fl_max - fl_min) ;;
      base <- float_of_int fl_min ;;
      Ok (base + normalized * span)%float
  end.

Definition is_drum_device (device_name : str) : bool :=
  dict_mem ABLETON_TO_FL_DRUMS device_name.

Definition get_rack_mapping (rack_type : str) : rack_mapping :=
  get_or (dict_get RACK_MAPPINGS rack_type)
         (mk_rack_mapping (lit "Patcher") (lit "Unknown rack type") None None).

(** [get_plugin_category]: the first category whose list holds the name. *)
Definition get_plugin_category (plugin_name : str) : str :=
  match List.find (fun item => existsb (str_eqb plugin_name) (snd item))
                  FL_PLUGIN_TYPES with
  | Some (category, _) => category
  | None => lit "unknown"
  end.

End PluginMapper.

(* ===================================================================== *)
(** * converters/plugin_state_generator.py                                *)
(* ===================================================================== *)

(** A pad dict as [generate_fpc_state] reads it: every key is optional. *)
Record pad_dict : Type := mk_pad {
  pad_sample_path : option str;
  pad_volume : option float;
  pad_pan : option float;
  pad_tune : option float
}.


Module PluginStateGenerator.

Definition generate_sampler_state (sample_path : str) (volume pan : float)
  : result bytes :=
  version <- pack_I 1 ;;
  let data := blit "SMPL" ++ version in
  (* Sample path *)
  data <- match sample_path with
          | _ :: _ =>
              path_bytes <- encode_utf8 sample_path ;;
              n <- pack_I (len path_bytes) ;;
              Ok (data ++ n ++ path_bytes)
          | [] =>
              n <- pack_I 0 ;;
              Ok (data ++ n)
          end ;;
  (* Parameters *)
  data <- append_percent data volume ;;
  data <- append_percent data pan ;;
  Ok data.

Definition generate_3xosc_state (osc1_vol : float) (osc1_wave : Z)
  (osc2_vol osc3_vol : float) : result bytes :=
  version <- pack_I 1 ;;
  let data := blit "3OSC" ++ version in
  (* Oscillator 1 *)
  data <- append data 1 ;;
  data <- append data osc1_wave ;;
  data <- append_percent data osc1_vol ;;
  data <- append data 64 ;;
  (* Oscillator 2 *)
  data <- append data (if (0 <? osc2_vol)%float then 1 else 0) ;;
  data <- append data 0 ;;
  data <- append_percent data osc2_vol ;;
  data <- append data 64 ;;
  (* Oscillator 3 *)
  data <- append data (if (0 <? osc3_vol)%float then 1 else 0) ;;
  data <- append data 0 ;;
  data <- append_percent data osc3_vol ;;
  data <- append data 64 ;;
  Ok data.

(** The body of the [if i < len(pads)] branch of [generate_fpc_state]. *)
Definition fpc_present_pad (data : bytes) (pad : pad_dict) : result bytes :=
  (* Pad enabled *)
  data <- append data 1 ;;
  (* Sample path *)
  data <- match get_or (pad_sample_path pad) [] with
          | c :: p =>
              path_bytes <- encode_utf8 (c :: p) ;;
              n <- pack_H (len path_bytes) ;;
              Ok (data ++ n ++ path_bytes)
          | [] =>
              n <- pack_H 0 ;;
              Ok (data ++ n)
          end ;;
  (* Parameters *)
  data <- append_percent data (get_or (pad_volume pad) 1.0%float) ;;
  data <- append_percent data (get_or (pad_pan pad) 0.5%float) ;;
  data <- append_percent data (get_or (pad_tune pad) 0.5%float) ;;
  Ok data.

(** The [else] branch: an empty pad. *)
Definition fpc_empty_pad (data : bytes) : result bytes :=
  data <- append data 0 ;;
  n <- pack_H 0 ;;
  Ok (data ++ n ++ [100; 100; 100]).

Definition generate_fpc_state (pads : list pad_dict) : result bytes :=
  version <- pack_I 1 ;;
  count <- pack_I (Z.min (len pads) 16) ;;
  let data := blit "FPC " ++ version ++ count in
  (* Write up to 16 pads *)
  for_each
    (fun data i =>
       match nth_error pads i with
       | Some pad => fpc_present_pad data pad
       | None => fpc_empty_pad data
       end)
    (seq 0 16) data.

Definition generate_fruity_compressor_state (threshold ratio attack release : float)
  : result bytes :=
  version <- pack_I 1 ;;
  let data := blit "COMP" ++ version in
  data <- append_percent data threshold ;;
  data <- append_percent data ratio ;;
  data <- append_percent data attack ;;
  data <- append_percent data release ;;
  data <- append data 50 ;;
  data <- append data 0 ;;
  Ok data.

Definition generate_fruity_delay_state (time feedback mix : float) : result bytes :=
  version <- pack_I 1 ;;
  let data := blit "DLY3" ++ version in
  data <- append_percent data time ;;
  data <- append_percent data feedback ;;
  data <- append_percent data mix ;;
  data <- append data 0 ;;
  data <- append data 0 ;;
  Ok data.

Definition generate_fruity_reverb_state (size decay mix : float) : result bytes :=
  version <- pack_I 1 ;;
  let data := blit "REV2" ++ version in
  data <- append_percent data size ;;
  data <- append_percent data decay ;;
  data <- append_percent data mix ;;
  data <- append data 50 ;;
  data <- append data 0 ;;
  Ok data.




Definition generate_generic_state (plugin_name : str) (params : dict float)
  : result bytes :=
  version <- pack_I 1 ;;
  let data := blit "PLGN" ++ version in
  (* Plugin name *)
  name_bytes <- encode_utf8 plugin_name ;;
  n <- pack_H (len name_bytes) ;;
  let data := data ++ n ++ name_bytes in
  (* Parameters *)
  count <- pack_I (len params) ;;
  for_each
    (fun data (item : str * float) =>
       let (name, value) := item in
       param_bytes <- encode_utf8 name ;;
       n <- pack_H (len param_bytes) ;;
       v <- pack_f value ;;
       Ok (data ++ n ++ param_bytes ++ v))
    params (data ++ count).

End PluginStateGenerator.

(** The keyword arguments the repository passes to [PluginStateFactory.generate]:
    [sample_path], [volume], [pan], [params] and [pads]; [None] is an absent
    keyword. *)
Record kwargs : Type := mk_kwargs {
  kw_sample_path : option str;
  kw_volume : option float;
  kw_pan : option float;
  kw_params : option (dict float);
  kw_pads : option (list pad_dict)
}.

Definition no_kwargs : kwargs := mk_kwargs None None None None None.

Module PluginStateFactory.
Import PluginStateGenerator.

(** Each generator applied to the keyword arguments: a keyword the function does not declare,
    or a missing required argument, is a [TypeError]; an absent keyword takes
    the declared default. *)
Definition call_sampler (kw : kwargs) : result bytes :=
  match kw_params kw, kw_pads kw with
  | None, None =>
      generate_sampler_state (get_or (kw_sample_path kw) [])
        (get_or (kw_volume kw) 1.0%float) (get_or (kw_pan kw) 0.5%float)
  | _, _ => Raise TypeError
  end.

Definition takes_no_keyword (kw : kwargs) : bool :=
  match kw_sample_path kw, kw_volume kw, kw_pan kw, kw_params kw, kw_pads kw with
  | None, None, None, None, None => true
  | _, _, _, _, _ => false
  end.

Definition call_3xosc (kw : kwargs) : result bytes :=
  if takes_no_keyword kw then generate_3xosc_state 1.0%float 0 0.0%float 0.0%float
  else Raise TypeError.

Definition call_fpc (kw : kwargs) : result bytes :=
  match kw_sample_path kw, kw_volume kw, kw_pan kw, kw_params kw, kw_pads kw with
  | None, None, None, None, Some pads => generate_fpc_state pads
  | _, _, _, _, _ => Raise TypeError
  end.

Definition call_compressor (kw : kwargs) : result bytes :=
  if takes_no_keyword kw then
    generate_fruity_compressor_state 0.5%float 0.3%float 0.1%float 0.3%float
  else Raise TypeError.

Definition call_delay (kw : kwargs) : result bytes :=
  if takes_no_keyword kw then generate_fruity_delay_state 0.25%float 0.5%float 0.5%float
  else Raise TypeError.

Definition call_reverb (kw : kwargs) : result bytes :=
  if takes_no_keyword kw then generate_fruity_reverb_state 0.5%float 0.5%float 0.3%float
  else Raise TypeError.

(** [bands] is required and none of the keywords above is it. *)
Definition call_eq (kw : kwargs) : result bytes := Raise TypeError.

Definition GENERATORS : dict (kwargs -> result bytes) := dict_of [
  ("Sampler", call_sampler);
  ("3xOsc", call_3xosc);
  ("FPC", call_fpc)
].

Definition EFFECTS : dict (kwargs -> result bytes) := dict_of [
  ("Fruity Compressor", call_compressor);
  ("Fruity Delay 3", call_delay);
  ("Fruity Reeverb 2", call_reverb);
  ("Fruity Parametric EQ 2", call_eq)
].

Definition generate (plugin_name : str) (kw : kwargs) : result bytes :=
  (* Try generators first *)
  match dict_get GENERATORS plugin_name with
  | Some f => f kw
  | None =>
      (* Try effects *)
      match dict_get EFFECTS plugin_name with
      | Some f => f kw
      | None =>
          (* Fallback to generic *)
          generate_generic_state plugin_name (get_or (kw_params kw) [])
      end
  end.

End PluginStateFactory.

(* ===================================================================== *)
(** * writers/flstudio_writer.py                                          *)
(* ===================================================================== *)

(** An entry of [playlist_items]. *)
Record playlist_item : Type := mk_item {
  item_pattern_id : Z;
  item_position : Z;
  item_length : Z;
  item_track_idx : Z
}.

Module FLStudioWriter.

(** The writer object: [self.ppq] and [self.use_pyflp]. *)
Record t : Type := mk {
  ppq : Z;
  use_pyflp : bool
}.

(** [__init__]; [pyflp_imported] says whether the optional import of the
    alternate backend succeeded. *)
Definition init (pyflp_imported : bool) : t := mk 960 pyflp_imported.

(** [_write_varint]: 7 data bits per byte, low group first, the high bit set
    on every byte but the last.  The value is a length, hence an [N]. *)
Equations? _write_varint (data : bytes) (value : N) : bytes
  by wf (N.to_nat (N.log2 value)) lt :=
  _write_varint data value :=
    let byte := N.land value 127 in
    let value' := N.shiftr value 7 in
    match N.eq_dec value' 0 with
    | right _ => _write_varint (data ++ [Z.of_N (N.lor byte 128)]) value'
    | left _ => data ++ [Z.of_N byte]
    end.
Proof.
  assert (E : value' = N.shiftr value 7) by reflexivity.
  clearbody value'. subst value'.
  rewrite N.log2_shiftr.
  assert (N.log2 value <> 0)%N; [ | lia ].
  intros H. apply n. apply N.log2_null in H.
  rewrite N.shiftr_div_pow2. apply N.div_small. lia.
Defined.

Definition _write_string (data : bytes) (text : str) : result bytes :=
  text_bytes <- encode_utf8 text ;;
  Ok (_write_varint data (N.of_nat (length text_bytes)) ++ text_bytes).

(** [_write_utf16le_string] with [include_null=True], its only use. *)
Definition _write_utf16le_string (data : bytes) (text : str) : result bytes :=
  encoded <- encode_utf16le text ;;
  let text_bytes := encoded ++ [0; 0] in
  Ok (_write_varint data (N.of_nat (length text_bytes)) ++ text_bytes).

(** [if plugin_state and len(plugin_state) > 0:] write event 205, else skip;
    the second component is [plugin_state_written]. *)
Definition write_plugin_state (data : bytes) (plugin_state : bytes) : bytes * bool :=
  match plugin_state with
  | _ :: _ =>
      (_write_varint (data ++ [205]) (N.of_nat (length plugin_state)) ++ plugin_state,
       true)
  | [] => (data, false)
  end.

(** [next((c for c in track.clips if not c.is_midi and c.audio_path), None)] *)
Definition first_audio_clip (track : Track) : option Clip :=
  find (fun c => negb (Clip.is_midi c)
                 && match Clip.audio_path c with [] => false | _ :: _ => true end)
       (Track.clips track).

Definition sampler_kwargs (track : Track) (audio_clip : Clip) : kwargs :=
  mk_kwargs (Some (Clip.audio_path audio_clip))
            (Some (Track.volume track))
            (Some ((Track.pan track + 1.0) / 2.0)%float)
            None None.

Definition params_kwargs (params : dict float) : kwargs :=
  mk_kwargs None None None (Some params) None.

Definition _generate_plugin_state (fl_plugin_name : str) (track : Track)
  (is_instrument : bool) (params : dict float) : result bytes :=
  let generic :=
    PluginStateFactory.generate fl_plugin_name
      (params_kwargs
         match params with
         | _ :: _ => params
         | [] => [(lit "volume", Track.volume track); (lit "pan", Track.pan track)]
         end) in
  if str_eqb fl_plugin_name (lit "Sampler") then
    match first_audio_clip track with
    | Some audio_clip =>
        PluginStateFactory.generate (lit "Sampler") (sampler_kwargs track audio_clip)
    | None => generic
    end
  else if str_eqb fl_plugin_name (lit "3xOsc") then
    PluginStateFactory.generate (lit "3xOsc") no_kwargs
  else if str_eqb fl_plugin_name (lit "Sytrus") then
    PluginStateFactory.generate (lit "Sytrus")
      (params_kwargs [(lit "volume", Track.volume track)])
  else generic.

Definition _generate_drum_rack_state (rack : Rack) : result bytes :=
  let pads :=
    map (fun pad =>
           mk_pad (Some (DrumPad.sample_path pad)) (Some (DrumPad.volume pad))
                  (Some (DrumPad.pan pad)) (Some 0.5%float))
        (firstn 16 (Rack.drum_pads rack)) in
  PluginStateFactory.generate (lit "FPC") (mk_kwargs None None None None (Some pads)).

Definition _map_plugin_params (plugin : Plugin) : result (dict float) :=
  match Plugin.parameters plugin with
  | [] => Ok [(lit "volume", 100.0%float)]
  | parameters =>
      for_each
        (fun mapped (item : str * float) =>
           let (name, value) := item in
           let mapped_name := PluginMapper.map_parameter_name name in
           mapped_value <- PluginMapper.map_parameter_value name value ;;
           Ok (dict_set mapped mapped_name mapped_value))
        parameters []
  end.

(** [_normalize_track_plugins]: the track after the in-place update. *)
Fixpoint normalize_racks (track : Track) (racks : list Rack) : Track :=
  match racks with
  | [] => track
  | rack :: racks' =>
      if Rack.is_drum_rack rack then normalize_racks track racks'
      else
        match Rack.rack_type rack, Rack.plugins rack with
        | Some ty, first :: others =>
            if str_eqb ty (lit "InstrumentGroupDevice") then
              Track.mk (Track.name track) (Track.color track) (Track.volume track)
                (Track.pan track) (Track.muted track) (Track.solo track)
                (Track.clips track)
                (Some first)
                (Track.effects track ++ others)
                (Track.racks track)
            else normalize_racks track racks'
        | _, _ => normalize_racks track racks'
        end
  end.

Definition _normalize_track_plugins (track : Track) : Track :=
  match Track.instrument track with
  | Some _ => track
  | None => normalize_racks track (Track.racks track)
  end.

Definition _write_channel (data : bytes) (idx : Z) (track : Track) : result bytes :=
  (* NEW_CHAN *)
  let data := data ++ [64] in
  i <- pack_H idx ;;
  let data := data ++ i in
  (* Channel name *)
  encoded <- encode_utf16le (Track.name track) ;;
  let name_bytes := encoded ++ [0; 0] in
  let data := data ++ [203] in
  let data := _write_varint data (N.of_nat (length name_bytes)) in
  let data := data ++ name_bytes in
  (* Volume (0-128) *)
  vol <- int_of_float (Track.volume track * 100)%float ;;
  let vol := Z.min 128 (Z.max 0 vol) in
  let data := data ++ [33] in
  data <- append data vol ;;
  (* Pan (0-128, 64=center) *)
  pan <- int_of_float ((Track.pan track + 1.0) * 64)%float ;;
  let pan := Z.min 128 (Z.max 0 pan) in
  let data := data ++ [34] in
  data <- append data pan ;;
  (* Plugin/generator state *)
  match Track.instrument track with
  | Some instrument =>
      let fl_plugin :=
        PluginMapper.ableton_to_fl (Plugin.name instrument) true
          (Plugin.device_type instrument) in
      plugin_params <- _map_plugin_params instrument ;;
      plugin_state <- _generate_plugin_state fl_plugin track true plugin_params ;;
      Ok (fst (write_plugin_state data plugin_state))
  | None =>
      match Track.racks track with
      | _ :: _ =>
          (* the first drum rack, then [break] *)
          match find Rack.is_drum_rack (Track.racks track) with
          | Some rack =>
              plugin_state <- _generate_drum_rack_state rack ;;
              Ok (fst (write_plugin_state data plugin_state))
          | None => Ok data
          end
      | [] =>
          if Track.has_audio track then
            match first_audio_clip track with
            | Some audio_clip =>
                plugin_state <-
                  PluginStateFactory.generate (lit "Sampler")
                    (sampler_kwargs track audio_clip) ;;
                Ok (fst (write_plugin_state data plugin_state))
            | None => Ok data
            end
          else if Track.has_midi track then
            (* [plugin_state_written] is still False on this branch *)
            plugin_state <- PluginStateFactory.generate (lit "3xOsc") no_kwargs ;;
            Ok (fst (write_plugin_state data plugin_state))
          else Ok data
      end
  end.

Definition _write_playlist (data : bytes) (playlist_items : list playlist_item)
  : result bytes :=
  match playlist_items with
  | [] => Ok data
  | _ :: _ =>
      clip_data <-
        for_each
          (fun clip_data item =>
             let position := item_position item in
             let length := Z.max 1 (item_length item) in
             let pattern_id := item_pattern_id item in
             let track_idx := item_track_idx item in
             let flags := 0 in
             (* struct.pack('<IIIII', ...) *)
             a <- pack_I position ;;
             b <- pack_I length ;;
             c <- pack_I pattern_id ;;
             d <- pack_I track_idx ;;
             e <- pack_I flags ;;
             Ok (clip_data ++ a ++ b ++ c ++ d ++ e))
          playlist_items [] ;;
      let data := data ++ [224] in
      Ok (_write_varint data (N.of_nat (length clip_data)) ++ clip_data)
  end.

(** [struct.pack_into(fmt, buf, offset, v)], given the packed bytes. *)
Definition pack_into (buf : bytes) (offset : nat) (packed : bytes) : bytes :=
  firstn offset buf ++ packed ++ skipn (offset + length packed) buf.

(** The 24 bytes of one note: the body of the loop over [clip.notes]. *)
Definition note_record (self : t) (track_idx : Z) (note : Note) : result bytes :=
  '(pos_ticks, dur_ticks) <- Note.to_ticks note (ppq self) ;;
  let note_bytes := repeat 0 24 in
  p <- pack_I pos_ticks ;;
  let note_bytes := pack_into note_bytes 0 p in         (* 0-3: Position *)
  f <- pack_H 0 ;;
  let note_bytes := pack_into note_bytes 4 f in         (* 4-5: Flags *)
  c <- pack_H track_idx ;;
  let note_bytes := pack_into note_bytes 6 c in         (* 6-7: Channel ID *)
  d <- pack_I dur_ticks ;;
  let note_bytes := pack_into note_bytes 8 d in         (* 8-11: Length *)
  k <- byte_of_int (Note.key note) ;;
  let note_bytes := pack_into note_bytes 12 [k] in      (* 12: MIDI key *)
  let note_bytes := pack_into note_bytes 16 [64] in     (* 16: Pan (center=64) *)
  v <- int_of_float (Note.velocity note * 127)%float ;;
  v <- byte_of_int v ;;
  let note_bytes := pack_into note_bytes 17 [v] in      (* 17: Velocity *)
  Ok note_bytes.

(** [note_data] after the loop over [clip.notes]. *)
Definition notes_block (self : t) (track_idx : Z) (notes : list Note) : result bytes :=
  for_each
    (fun note_data note =>
       note_bytes <- note_record self track_idx note ;;
       Ok (note_data ++ note_bytes))
    notes [].

Definition pattern_name_of (track_name : str) (clip : Clip) : str :=
  match Clip.scene_index clip with
  | Some scene_index => track_name ++ lit " - Scene " ++ str_of_int (scene_index + 1)
  | None => track_name ++ lit " - " ++ Clip.name clip
  end.

Definition _write_pattern (self : t) (data : bytes) (pattern_idx track_idx : Z)
  (track_name : str) (clip : Clip) : result bytes :=
  (* NEW_PAT starts at 1 *)
  let data := data ++ [65] in
  i <- pack_H (pattern_idx + 1) ;;
  let data := data ++ i in
  (* Pattern name *)
  let pattern_name := pattern_name_of track_name clip in
  let data := data ++ [193] in
  data <- _write_utf16le_string data pattern_name ;;
  (* Notes (24 bytes each) *)
  note_data <- notes_block self track_idx (Clip.notes clip) ;;
  match note_data with
  | _ :: _ =>
      let data := data ++ [203] in
      Ok (_write_varint data (N.of_nat (length note_data)) ++ note_data)
  | [] => Ok data
  end.

(** The state of the pattern loop of [_build_flp_binary]. *)
Record pattern_state : Type := mk_pstate {
  ps_data : bytes;
  ps_pattern_count : Z;
  ps_playlist_items : list playlist_item
}.

(** The body of [for clip in track.clips]. *)
Definition pattern_step (self : t) (track_idx : Z) (track : Track)
  (st : pattern_state) (clip : Clip) : result pattern_state :=
  if negb (Clip.is_midi clip) then Ok st
  else
    let pattern_count := ps_pattern_count st in
    data <- _write_pattern self (ps_data st) pattern_count track_idx
              (Track.name track) clip ;;
    s <- mul_int (Clip.start clip) (ppq self) ;;
    position <- int_of_float s ;;
    d <- mul_int (Clip.duration clip) (ppq self) ;;
    length <- int_of_float d ;;
    Ok (mk_pstate data (pattern_count + 1)
          (ps_playlist_items st
             ++ [mk_item (pattern_count + 1) position length track_idx])).

(** The PATTERNS loop: [for track_idx, track in enumerate(transproj.tracks)]. *)
Definition write_patterns (self : t) (tracks : list Track) (data : bytes)
  : result pattern_state :=
  for_enumerate
    (fun st track_idx track =>
       for_each (pattern_step self track_idx track) (Track.clips track) st)
    0 tracks (mk_pstate data 0 []).

(** The CHANNELS loop.  [_normalize_track_plugins] updates each track in place
    before its channel is written, so the tracks are returned as the loop
    leaves them, whether it ends normally or with an exception. *)
Fixpoint write_channels (data : bytes) (idx : Z) (tracks : list Track)
  : list Track * result bytes :=
  match tracks with
  | [] => ([], Ok data)
  | track :: rest =>
      let track := _normalize_track_plugins track in
      match _write_channel data idx track with
      | Ok data =>
          let (rest, r) := write_channels data (idx + 1) rest in
          (track :: rest, r)
      | Raise e => (track :: rest, Raise e)
      end
  end.

(** The header record and the tag of the data block: what
    [_build_flp_binary] writes before [data_start = len(data)]. *)
Definition write_header (self : t) (transproj : TransProj) : result bytes :=
  (* === HEADER (FLhd) === *)
  let data := blit "FLhd" in
  size <- pack_I 6 ;;
  format <- pack_H 0 ;;
  channels <- pack_H (len (TransProj.tracks transproj)) ;;
  resolution <- pack_H (ppq self) ;;
  let data := data ++ size ++ format ++ channels ++ resolution in
  (* === DATA (FLdt) === *)
  Ok (data ++ blit "FLdt").

(** The placeholder of the block size and the global events. *)
Definition write_globals (data : bytes) (transproj : TransProj) : result bytes :=
  placeholder <- pack_I 0 ;;
  let data := data ++ placeholder in
  (* Version (event 199) *)
  let data := data ++ [199] in
  data <- _write_string data (lit "21.0.3") ;;
  (* Project ID (event 156) *)
  let data := data ++ [156] in
  project_id <- pack_I 12345 ;;
  let data := data ++ project_id in
  (* Tempo (event 66 - only here, not in patterns) *)
  let data := data ++ [66] in
  bpm <- int_of_float (TransProj.tempo transproj) ;;
  tempo <- pack_H bpm ;;
  let data := data ++ tempo in
  (* Title (optional) *)
  match TransProj.name transproj with
  | _ :: _ => _write_utf16le_string (data ++ [206]) (TransProj.name transproj)
  | [] => Ok data
  end.

Definition with_tracks (transproj : TransProj) (tracks : list Track) : TransProj :=
  TransProj.mk (TransProj.name transproj) (TransProj.tempo transproj)
    (TransProj.ppq transproj) tracks (TransProj.ableton_version transproj)
    (TransProj.is_session_view transproj).

(** [_build_flp_binary]: the project as the call leaves it, and the bytes it
    returns or the exception it raises. *)
Definition _build_flp_binary (self : t) (transproj : TransProj)
  : TransProj * result bytes :=
  match write_header self transproj with
  | Raise e => (transproj, Raise e)
  | Ok header =>
      let data_start := length header in
      match write_globals header transproj with
      | Raise e => (transproj, Raise e)
      | Ok data =>
          (* === CHANNELS === *)
          let (tracks, r) := write_channels data 0 (TransProj.tracks transproj) in
          (with_tracks transproj tracks,
           data <- r ;;
           (* === PATTERNS === *)
           st <- write_patterns self tracks data ;;
           (* === PLAYLIST === *)
           data <- _write_playlist (ps_data st) (ps_playlist_items st) ;;
           (* Update data size *)
           let data_size := len data - Z.of_nat data_start - 4 in
           size <- pack_I data_size ;;
           Ok (pack_into data data_start size))
      end
  end.

Section Backend.

(** [_write_with_pyflp]: the alternate backend, an external collaborator; it
    reads the project and saves through the third-party object model. *)
Variable _write_with_pyflp : t -> TransProj -> result bytes.

(** [write]: the writer and the project as the call leaves them, and the
    contents of the file it wrote (or the exception it raised). *)
Definition write (self : t) (transproj : TransProj) : t * TransProj * result bytes :=
  let self :=
    mk (if TransProj.ppq transproj =? 0 then ppq self else TransProj.ppq transproj)
       (use_pyflp self) in
  if use_pyflp self then (self, transproj, _write_with_pyflp self transproj)
  else
    (* Build binary FLP, then write it to the file *)
    let (transproj, data) := _build_flp_binary self transproj in
    (self, transproj, data).

End Backend.

End FLStudioWriter.

(* ===================================================================== *)
(** * parsers/ableton_parser.py: the clip search of a track               *)
(* ===================================================================== *)

(** [xml.etree.ElementTree]: an element is its tag, its attributes and its
    child elements, in document order. *)
Module ET.

Inductive Element : Type :=
| Elem (tag : str) (attrib : dict str) (children : list Element).

Definition tag (e : Element) : str := let (t, _, _) := e in t.
Definition attrib (e : Element) : dict str := let (_, a, _) := e in a.
Definition children (e : Element) : list Element := let (_, _, c) := e in c.

(** [elem.get(key, default)] *)
Definition get (e : Element) (key : string) (default : string) : str :=
  get_or (dict_get (attrib e) (lit key)) (lit default).

(** The truth value of an element: it has children. *)
Definition truthy (e : Element) : bool :=
  match children e with [] => false | _ :: _ => true end.

(** Every element below [e], in document order ([e] itself left out). *)
Fixpoint descendants (e : Element) : list Element :=
  match e with
  | Elem _ _ cs => flat_map (fun c => c :: descendants c) cs
  end.

Definition has_tag (name : string) (e : Element) : bool := str_eqb (tag e) (lit name).

(** [elem.findall('Name')]: the children with that tag. *)
Definition findall_child (e : Element) (name : string) : list Element :=
  filter (has_tag name) (children e).

(** [elem.findall('.//A/B/...')]: the descendants tagged [A], then their
    children tagged [B], and so on. *)
Definition findall (e : Element) (first : string) (rest : list string)
  : list Element :=
  fold_left (fun found name => flat_map (fun x => findall_child x name) found)
            rest (filter (has_tag first) (descendants e)).

(** [elem.find(...)]: the first match, or [None]. *)
Definition find_child (e : Element) (name : string) : option Element :=
  hd_error (findall_child e name).

Definition find (e : Element) (first : string) (rest : list string)
  : option Element :=
  hd_error (findall e first rest).

End ET.

Module AbletonParser.
Import ET.

Section Parser.

(** Python's [float(s)] and [int(s)] on an attribute value: [ValueError] when
    the text is not a number. *)
Variable py_float : str -> result float.
Variable py_int : str -> result Z.

(** [float(elem.get('Value', default)) if elem is not None else otherwise] *)
Definition float_value (elem : option Element) (default : string) (otherwise : float)
  : result float :=
  match elem with
  | Some e => py_float (get e "Value" default)
  | None => Ok otherwise
  end.

(** [name_elem.get('Value', default) if name_elem is not None else default] *)
Definition name_value (name_elem : option Element) (default : string) : str :=
  match name_elem with
  | Some e => get e "Value" default
  | None => lit default
  end.

(** Get clip name for duplicate detection. *)
Definition _get_clip_name (clip_elem : Element) : str :=
  name_value (find clip_elem "Name" []) "".

(** The notes of one [KeyTrack]. *)
Definition parse_key_track (notes : list Note) (key_track : Element)
  : result (list Note) :=
  match find key_track "MidiKey" [] with
  | None => Ok notes
  | Some midi_key_elem =>
      note_num <- py_int (get midi_key_elem "Value" "60") ;;
      match find key_track "Notes" [] with
      | Some notes_elem =>
          if truthy notes_elem then
            for_each
              (fun notes note_elem =>
                 time <- py_float (get note_elem "Time" "0") ;;
                 duration <- py_float (get note_elem "Duration" "1") ;;
                 velocity <- py_float (get note_elem "Velocity" "100") ;;
                 Ok (notes ++ [Note.mk time duration note_num (velocity / 127.0)%float]))
              (findall_child notes_elem "MidiNoteEvent") notes
          else Ok notes
      | None => Ok notes
      end
  end.

Definition _parse_midi_clip (clip_elem : Element) (scene_index : option Z)
  : result Clip :=
  (* Get clip name *)
  let clip_name := name_value (find clip_elem "Name" []) "MIDI Clip" in
  (* Get time *)
  start <- float_value (find clip_elem "CurrentStart" []) "0" 0.0%float ;;
  end_ <- float_value (find clip_elem "CurrentEnd" []) "4" 4.0%float ;;
  (* Parse notes *)
  notes <- match find clip_elem "Notes" ["KeyTracks"] with
           | Some key_tracks =>
               if truthy key_tracks then
                 for_each parse_key_track (findall_child key_tracks "KeyTrack") []
               else Ok []
           | None => Ok []
           end ;;
  Ok (Clip.mk clip_name start (end_ - start)%float notes [] true scene_index).

Definition _parse_audio_clip (clip_elem : Element) (scene_index : option Z)
  : result Clip :=
  (* Get clip name *)
  let clip_name := name_value (find clip_elem "Name" []) "Audio Clip" in
  (* Get time *)
  start <- float_value (find clip_elem "CurrentStart" []) "0" 0.0%float ;;
  end_ <- float_value (find clip_elem "CurrentEnd" []) "4" 4.0%float ;;
  (* Get sample path *)
  let audio_path :=
    match find clip_elem "SampleRef" ["FileRef"] with
    | Some sample_ref =>
        if truthy sample_ref then
          match find sample_ref "Path" [] with
          | Some path_elem => get path_elem "Value" ""
          | None => []
          end
        else []
    | None => []
    end in
  Ok (Clip.mk clip_name start (end_ - start)%float [] audio_path false scene_index).

(** [_parse_clip_slot], on the clips of the track collected so far. *)
Definition _parse_clip_slot (slot_elem : Element) (clips : list Clip) (scene_idx : Z)
  : result (list Clip) :=
  match find_child slot_elem "Value" with
  | None => Ok clips
  | Some value_elem =>
      (* Check for MIDI clip *)
      clips <- match find_child value_elem "MidiClip" with
               | Some midi_clip =>
                   clip <- _parse_midi_clip midi_clip (Some scene_idx) ;;
                   Ok (clips ++ [clip])
               | None => Ok clips
               end ;;
      (* Check for Audio clip *)
      match find_child value_elem "AudioClip" with
      | Some audio_clip =>
          clip <- _parse_audio_clip audio_clip (Some scene_idx) ;;
          Ok (clips ++ [clip])
      | None => Ok clips
      end
  end.

(** One step of a fallback sweep: skip the element when a clip already
    collected has its name, else parse and append it. *)
Definition sweep_step (parse : Element -> option Z -> result Clip)
  (clips : list Clip) (clip_elem : Element) : result (list Clip) :=
  if existsb (fun c => str_eqb (Clip.name c) (_get_clip_name clip_elem)) clips
  then Ok clips
  else
    clip <- parse clip_elem None ;;
    Ok (clips ++ [clip]).

(** The clip search of [_parse_track]: [track.clips] when it is done. *)
Definition _parse_track_clips (track_elem : Element) : result (list Clip) :=
  let clips := [] in
  (* 1. Session View (ClipSlotList) *)
  clips <- match find track_elem "ClipSlotList" [] with
           | Some clip_slots =>
               if truthy clip_slots then
                 for_enumerate
                   (fun clips scene_idx slot => _parse_clip_slot slot clips scene_idx)
                   0 (findall_child clip_slots "ClipSlot") clips
               else Ok clips
           | None => Ok clips
           end ;;
  (* 2. Arrangement (MainSequencer/ArrangerAutomation) *)
  clips <- match find track_elem "MainSequencer"
                   ["ClipTimeable"; "ArrangerAutomation"; "Events"] with
           | Some events =>
               if truthy events then
                 clips <- for_each
                            (fun clips midi_clip =>
                               clip <- _parse_midi_clip midi_clip None ;;
                               Ok (clips ++ [clip]))
                            (findall events "MidiClip" []) clips ;;
                 for_each
                   (fun clips audio_clip =>
                      clip <- _parse_audio_clip audio_clip None ;;
                      Ok (clips ++ [clip]))
                   (findall events "AudioClip" []) clips
               else Ok clips
           | None => Ok clips
           end ;;
  (* 3. Direct children (fallback) *)
  clips <- for_each (sweep_step _parse_midi_clip)
             (findall track_elem "MidiClip" []) clips ;;
  for_each (sweep_step _parse_audio_clip)
    (findall track_elem "AudioClip" []) clips.

End Parser.

End AbletonParser.

(* ===================================================================== *)
(** * The vocabulary of the specification                                 *)
(* ===================================================================== *)

(** Python's [round(x)]: the nearest integer, a tie going to the even one.
    The specification words the tick and velocity conversions with it. *)
Definition py_round (x : float) : result Z :=
  match Prim2SF x with
  | S754_zero _ => Ok 0
  | S754_finite s m e =>
      let a :=
        if 0 <=? e then Zpos m * 2 ^ e
        else
          let d := 2 ^ (- e) in
          let q := Zpos m / d in
          let r := Zpos m mod d in
          if 2 * r <? d then q
          else if d <? 2 * r then q + 1
          else if Z.even q then q else q + 1 in
      Ok (if s then - a else a)
  | S754_infinity _ => Raise OverflowError
  | S754_nan => Raise ValueError
  end.

(** [ticks = round(beats * resolution)], the conversion as the specification
    states it. *)
Definition spec_to_ticks (note : Note) (ppq : Z) : result (Z * Z) :=
  p <- mul_int (Note.position note) ppq ;;
  pos_ticks <- py_round p ;;
  d <- mul_int (Note.duration note) ppq ;;
  dur_ticks <- py_round d ;;
  Ok (pos_ticks, dur_ticks).

(** [z] is the float [x] truncated toward zero: [x] is finite, [z] has its
    sign, and [|z| <= |x| < |z| + 1].  A finite non-zero float is
    [(-1)^s * m * 2^e]; the bounds are stated with the power of two cleared
    from the denominators. *)
Definition truncation_of (x : float) (z : Z) : Prop :=
  match Prim2SF x with
  | S754_zero _ => z = 0
  | S754_finite s m e =>
      (if s then z <= 0 else 0 <= z)
      /\ Z.abs z * 2 ^ Z.max 0 (- e) <= Zpos m * 2 ^ Z.max 0 e
      /\ Zpos m * 2 ^ Z.max 0 e < (Z.abs z + 1) * 2 ^ Z.max 0 (- e)
  | _ => False
  end.

(** The exact conversion of a small integer constant to a float. *)
Definition float_const (z : Z) : float := SF2Prim (binary_normalize prec emax z 0 false).

(** ** The event stream *)

(** An event of the data block is an identifying byte and a payload: of a
    fixed width for the scalar events, or a blob written behind the varint
    of its length. *)
Inductive payload : Type :=
| Scalar (b : bytes)
| Blob (b : bytes).

Record event : Type := mk_event {
  ev_id : Z;
  ev_payload : payload
}.

Definition varint (n : nat) : bytes := FLStudioWriter._write_varint [] (N.of_nat n).

Definition event_bytes (e : event) : bytes :=
  match ev_payload e with
  | Scalar b => ev_id e :: b
  | Blob b => ev_id e :: varint (length b) ++ b
  end.

Definition stream_bytes (events : list event) : bytes := flat_map event_bytes events.

Definition TEMPO : Z := 66.
Definition NEW_CHAN : Z := 64.
Definition NEW_PAT : Z := 65.
Definition PAT_NAME : Z := 193.
Definition CHAN_PLUGIN : Z := 205.

Definition has_id (id : Z) (e : event) : bool := ev_id e =? id.

Module EventView.
Import FLStudioWriter.

(** The global events of [_build_flp_binary]. *)
Definition global_events (transproj : TransProj) : result (list event) :=
  version <- encode_utf8 (lit "21.0.3") ;;
  project_id <- pack_I 12345 ;;
  bpm <- int_of_float (TransProj.tempo transproj) ;;
  tempo <- pack_H bpm ;;
  title <- match TransProj.name transproj with
           | _ :: _ =>
               encoded <- encode_utf16le (TransProj.name transproj) ;;
               Ok [mk_event 206 (Blob (encoded ++ [0; 0]))]
           | [] => Ok []
           end ;;
  Ok ([mk_event 199 (Blob version); mk_event 156 (Scalar project_id);
       mk_event TEMPO (Scalar tempo)] ++ title).

(** The blob [_write_channel] selects for a track, [None] when no branch
    selects an encoder. *)
Definition selected_plugin_state (track : Track) : result (option bytes) :=
  match Track.instrument track with
  | Some instrument =>
      let fl_plugin :=
        PluginMapper.ableton_to_fl (Plugin.name instrument) true
          (Plugin.device_type instrument) in
      plugin_params <- _map_plugin_params instrument ;;
      plugin_state <- _generate_plugin_state fl_plugin track true plugin_params ;;
      Ok (Some plugin_state)
  | None =>
      match Track.racks track with
      | _ :: _ =>
          match find Rack.is_drum_rack (Track.racks track) with
          | Some rack =>
              plugin_state <- _generate_drum_rack_state rack ;;
              Ok (Some plugin_state)
          | None => Ok None
          end
      | [] =>
          if Track.has_audio track then
            match first_audio_clip track with
            | Some audio_clip =>
                plugin_state <-
                  PluginStateFactory.generate (lit "Sampler")
                    (sampler_kwargs track audio_clip) ;;
                Ok (Some plugin_state)
            | None => Ok None
            end
          else if Track.has_midi track then
            plugin_state <- PluginStateFactory.generate (lit "3xOsc") no_kwargs ;;
            Ok (Some plugin_state)
          else Ok None
      end
  end.

Definition plugin_events (selected : option bytes) : list event :=
  match selected with
  | Some (b :: bs) => [mk_event CHAN_PLUGIN (Blob (b :: bs))]
  | Some [] | None => []
  end.

(** The channel record of a track. *)
Definition channel_events (idx : Z) (track : Track) : result (list event) :=
  i <- pack_H idx ;;
  encoded <- encode_utf16le (Track.name track) ;;
  vol <- int_of_float (Track.volume track * 100)%float ;;
  vol <- byte_of_int (Z.min 128 (Z.max 0 vol)) ;;
  pan <- int_of_float ((Track.pan track + 1.0) * 64)%float ;;
  pan <- byte_of_int (Z.min 128 (Z.max 0 pan)) ;;
  selected <- selected_plugin_state track ;;
  Ok ([mk_event NEW_CHAN (Scalar i); mk_event 203 (Blob (encoded ++ [0; 0]));
       mk_event 33 (Scalar [vol]); mk_event 34 (Scalar [pan])]
      ++ plugin_events selected).

Definition notes_events (note_data : bytes) : list event :=
  match note_data with
  | _ :: _ => [mk_event 203 (Blob note_data)]
  | [] => []
  end.

(** The pattern record of a clip, under the pattern index it carries (the
    writer's [pattern_idx + 1]). *)
Definition pattern_events (self : t) (pattern_id track_idx : Z) (track_name : str)
  (clip : Clip) : result (list event) :=
  i <- pack_H pattern_id ;;
  encoded <- encode_utf16le (pattern_name_of track_name clip) ;;
  note_data <- notes_block self track_idx (Clip.notes clip) ;;
  Ok ([mk_event NEW_PAT (Scalar i); mk_event PAT_NAME (Blob (encoded ++ [0; 0]))]
      ++ notes_events note_data).

(** The MIDI clips of the project in processing order (track order, then
    clip order), each with the index and the name of its track. *)
Fixpoint midi_clips_from (track_idx : Z) (tracks : list Track)
  : list (Z * str * Clip) :=
  match tracks with
  | [] => []
  | track :: rest =>
      map (fun clip => (track_idx, Track.name track, clip))
          (filter Clip.is_midi (Track.clips track))
      ++ midi_clips_from (track_idx + 1) rest
  end.

Definition midi_clips (transproj : TransProj) : list (Z * str * Clip) :=
  midi_clips_from 0 (TransProj.tracks transproj).

(** [enumerate(l, start)] *)
Fixpoint number_from {A : Type} (start : Z) (l : list A) : list (Z * A) :=
  match l with
  | [] => []
  | x :: l' => (start, x) :: number_from (start + 1) l'
  end.

(** [record] is the pattern record of the numbered MIDI clip [entry]. *)
Definition is_pattern_record (self : t) (entry : Z * (Z * str * Clip))
  (record : list event) : Prop :=
  let '(pattern_id, (track_idx, track_name, clip)) := entry in
  pattern_events self pattern_id track_idx track_name clip = Ok record.

(** [record] is the channel record of the numbered track [entry]. *)
Definition is_channel_record (entry : Z * Track) (record : list event) : Prop :=
  channel_events (fst entry) (snd entry) = Ok record.


End EventView.

(** The payloads of the pattern-start events of a stream, in order. *)
Definition pattern_ids (events : list event) : list payload :=
  map ev_payload (filter (has_id NEW_PAT) events).

(** The two-byte little-endian indices 1, 2, ..., n. *)
Definition indices_from_one (n : nat) : list payload :=
  map (fun i => Scalar (le_bytes 2 (Z.of_nat i))) (seq 1 n).

(** The project of the end-to-end scenario: one MIDI track "Lead", tempo
    128, one clip over beats 0-4 with two notes, no explicit instrument. *)
Definition scenario_clip : Clip :=
  Clip.mk (lit "Clip") 0 4
    [Note.mk 0 1 60 1; Note.mk 2 0.5 64 0.5] [] true None.

Definition scenario_project : TransProj :=
  TransProj.mk (lit "demo") 128 96
    [Track.mk (lit "Lead") (128, 128, 128) 1 0 false false [scenario_clip] None [] []]
    [] false.

(** ** Note records *)

(** The 24 bytes of a note record: bytes 0-3 the tick position, 4-5 the
    flags (zero), 6-7 the channel index, 8-11 the tick duration, 12 the MIDI
    key, 16 the pan (64, the center), 17 the velocity, every other byte
    zero. *)
Definition note_layout (pos_ticks track_idx dur_ticks key vel : Z) : bytes :=
  le_bytes 4 pos_ticks ++ [0; 0] ++ le_bytes 2 track_idx ++ le_bytes 4 dur_ticks
  ++ [key; 0; 0; 0; 64; vel; 0; 0; 0; 0; 0; 0].

(** [record] is the note record of [note]: its ticks are those of
    [Note.to_ticks], its velocity byte is [int(note.velocity * 127)], and
    every field fits its width. *)
Definition is_note_record (self : FLStudioWriter.t) (track_idx : Z) (note : Note)
  (record : bytes) : Prop :=
  exists pos_ticks dur_ticks vel,
    Note.to_ticks note (FLStudioWriter.ppq self) = Ok (pos_ticks, dur_ticks)
    /\ int_of_float (Note.velocity note * 127)%float = Ok vel
    /\ 0 <= pos_ticks < 4294967296
    /\ 0 <= track_idx < 65536
    /\ 0 <= dur_ticks < 4294967296
    /\ 0 <= Note.key note < 256
    /\ 0 <= vel < 256
    /\ record = note_layout pos_ticks track_idx dur_ticks (Note.key note) vel.

(** The note-block event of a pattern: none for no record, else the single
    event 203 holding the records one after the other. *)
Definition note_block (records : list bytes) : list event :=
  match records with
  | [] => []
  | _ :: _ => [mk_event 203 (Blob (concat records))]
  end.

(** ** What a write may change *)

(** [track'] differs from [track] at most in its instrument and effects. *)
Definition same_but_plugins (track track' : Track) : Prop :=
  Track.name track' = Track.name track
  /\ Track.color track' = Track.color track
  /\ Track.volume track' = Track.volume track
  /\ Track.pan track' = Track.pan track
  /\ Track.muted track' = Track.muted track
  /\ Track.solo track' = Track.solo track
  /\ Track.clips track' = Track.clips track
  /\ Track.racks track' = Track.racks track.

(** [track'] is [track] with the plugins of an instrument rack promoted: the
    track had no instrument, and one of its racks, not a drum rack, of type
    [InstrumentGroupDevice], gave its first plugin as the instrument and its
    other plugins as further effects. *)
Definition promoted (track track' : Track) : Prop :=
  Track.instrument track = None
  /\ exists rack first others,
      In rack (Track.racks track)
      /\ Rack.is_drum_rack rack = false
      /\ Rack.rack_type rack = Some (lit "InstrumentGroupDevice")
      /\ Rack.plugins rack = first :: others
      /\ Track.instrument track' = Some first
      /\ Track.effects track' = Track.effects track ++ others.

(** A track with an instrument rack of two devices and no instrument. *)
Definition rack_project : TransProj :=
  TransProj.mk (lit "racks") 120 96
    [Track.mk (lit "Keys") (128, 128, 128) 1 0 false false
       [Clip.mk (lit "Chords") 0 4 [Note.mk 0 1 60 1] [] true None]
       None []
       [Rack.mk (lit "Instrument Rack") (Some (lit "InstrumentGroupDevice"))
          [Plugin.mk (lit "Operator") (lit "Ableton") true None None [];
           Plugin.mk (lit "Analog") (lit "Ableton") true None None []]
          []]]
    [] false.

(** No alternate backend: the optional import failed. *)
Definition no_backend (self : FLStudioWriter.t) (transproj : TransProj) : result bytes :=
  Raise TypeError.

(** ** Inputs on which the code departs from its specification *)

(** A MIDI track with an audio-effect rack, no instrument and no drum rack. *)
Definition effect_rack_track : Track :=
  Track.mk (lit "Keys") (128, 128, 128) 1 0 false false
    [Clip.mk (lit "Chords") 0 4 [Note.mk 0 1 60 1] [] true None]
    None []
    [Rack.mk (lit "FX") (Some (lit "AudioEffectGroupDevice"))
       [Plugin.mk (lit "Reverb") (lit "Ableton") false None None []] []].

(** The same track without the rack. *)
Definition plain_midi_track : Track :=
  Track.mk (lit "Keys") (128, 128, 128) 1 0 false false
    [Clip.mk (lit "Chords") 0 4 [Note.mk 0 1 60 1] [] true None]
    None [] [].

(** [<MidiTrack><ClipSlotList><ClipSlot><Value> clip </Value></ClipSlot>
    </ClipSlotList></MidiTrack>]: a track whose only clip sits in the first
    clip slot. *)
Definition slot_track (clip_elem : ET.Element) : ET.Element :=
  ET.Elem (lit "MidiTrack") []
    [ET.Elem (lit "ClipSlotList") []
       [ET.Elem (lit "ClipSlot") []
          [ET.Elem (lit "Value") [] [clip_elem]]]].

(** [<MidiClip/>]: a clip element with no [Name] element. *)
Definition nameless_clip : ET.Element := ET.Elem (lit "MidiClip") [] [].

(** [<MidiClip><Name Value="Intro"/></MidiClip>] *)
Definition named_clip : ET.Element :=
  ET.Elem (lit "MidiClip") []
    [ET.Elem (lit "Name") [(lit "Value", lit "Intro")] []].

(** ** Reading the event stream back *)

(** The shape of the payload behind each identifying byte the writer uses:
    the width of a scalar payload (33 and 34: one byte; 64, 65 and 66: two;
    156: four) or a blob behind the varint of its length (193, 199, 203, 205,
    206, 224). *)
Inductive shape : Type :=
| Fixed (width : nat)
| VarLength.

Definition shape_of (id : Z) : option shape :=
  if (id =? 33) || (id =? 34) then Some (Fixed 1)
  else if (id =? 64) || (id =? 65) || (id =? 66) then Some (Fixed 2)
  else if id =? 156 then Some (Fixed 4)
  else if (id =? 193) || (id =? 199) || (id =? 203) || (id =? 205)
          || (id =? 206) || (id =? 224) then Some VarLength
  else None.

(** The inverse of [_write_varint]: the value and the bytes behind it. *)
Fixpoint read_varint (bs : bytes) : option (Z * bytes) :=
  match bs with
  | [] => None
  | b :: rest =>
      if b <? 128 then Some (b, rest)
      else
        match read_varint rest with
        | Some (high, rest') => Some (b - 128 + 128 * high, rest')
        | None => None
        end
  end.

(** Reads events until the bytes are used up; [fuel] bounds their number. *)
Fixpoint read_events_within (fuel : nat) (bs : bytes) : option (list event) :=
  match bs with
  | [] => Some []
  | id :: rest =>
      match fuel with
      | O => None
      | S fuel' =>
          match shape_of id with
          | Some (Fixed width) =>
              if (length rest <? width)%nat then None
              else
                option_map (cons (mk_event id (Scalar (firstn width rest))))
                           (read_events_within fuel' (skipn width rest))
          | Some VarLength =>
              match read_varint rest with
              | Some (n, rest') =>
                  if (length rest' <? Z.to_nat n)%nat then None
                  else
                    option_map
                      (cons (mk_event id (Blob (firstn (Z.to_nat n) rest'))))
                      (read_events_within fuel' (skipn (Z.to_nat n) rest'))
              | None => None
              end
          | None => None
          end
      end
  end.

(** Every event takes at least one byte, so the length of the stream is
    fuel enough. *)
Definition read_events (bs : bytes) : option (list event) :=
  read_events_within (length bs) bs.

(** An event has the shape its identifying byte announces. *)
Definition well_shaped (e : event) : Prop :=
  match ev_payload e, shape_of (ev_id e) with
  | Scalar b, Some (Fixed width) => length b = width
  | Blob _, Some VarLength => True
  | _, _ => False
  end.

(** ** Records of a blob *)

(** [traverse f l]: the results of [f] on the elements of [l], in order, or
    the first exception. *)
Fixpoint traverse {A B : Type} (f : A -> result B) (l : list A) : result (list B) :=
  match l with
  | [] => Ok []
  | x :: l' =>
      y <- f x ;;
      ys <- traverse f l' ;;
      Ok (y :: ys)
  end.



(* ===================================================================== *)
(** * Properties                                                          *)
(* ===================================================================== *)

(** ** The result monad *)

Lemma bind_ok {A B : Type} (m : result A) (k : A -> result B) (b : B) :
  bind m k = Ok b -> exists a, m = Ok a /\ k a = Ok b.
Proof. destruct m as [a | e]; simpl; intros H; [ eauto | discriminate ]. Qed.

(** Inverts a hypothesis [x <- m ;; k = Ok b] into its two steps: the value
    [a] of [m], with [E : m = Ok a], and what is left of [H]. *)
Tactic Notation "bind_inv" hyp(H) ident(a) ident(E) :=
  apply bind_ok in H; destruct H as (a & E & H).

(** ** Ticks (core/transproj.py) *)

Section Truncation.

Lemma shiftl_pos_trunc (m : positive) (e : Z) :
  let a := Z.shiftl (Zpos m) e in
  0 <= a
  /\ a * 2 ^ Z.max 0 (- e) <= Zpos m * 2 ^ Z.max 0 e
  /\ Zpos m * 2 ^ Z.max 0 e < (a + 1) * 2 ^ Z.max 0 (- e).
Proof.
  intros a. subst a.
  destruct (Z.le_gt_cases 0 e) as [He | He].
  - rewrite Z.shiftl_mul_pow2 by assumption.
    replace (Z.max 0 (- e)) with 0 by lia.
    replace (Z.max 0 e) with e by lia.
    assert (0 < 2 ^ e) by (apply Z.pow_pos_nonneg; lia).
    change (2 ^ 0) with 1. nia.
  - rewrite Z.shiftl_div_pow2 by lia.
    replace (Z.max 0 (- e)) with (- e) by lia.
    replace (Z.max 0 e) with 0 by lia.
    change (2 ^ 0) with 1.
    assert (Hd : 0 < 2 ^ (- e)) by (apply Z.pow_pos_nonneg; lia).
    pose proof (Z.div_mod (Zpos m) (2 ^ (- e)) ltac:(lia)) as Hdm.
    pose proof (Z.mod_pos_bound (Zpos m) (2 ^ (- e)) Hd) as Hr.
    assert (0 <= Zpos m / 2 ^ (- e)) by (apply Z.div_pos; lia).
    nia.
Qed.

(** [int(x)] is the truncation of [x] toward zero. *)
Lemma int_of_float_truncates (x : float) (z : Z) :
  int_of_float x = Ok z -> truncation_of x z.
Proof.
  unfold int_of_float, truncation_of.
  destruct (Prim2SF x) as [s | s | | s m e]; intros H; inversion H; subst; clear H.
  - reflexivity.
  - destruct (shiftl_pos_trunc m e) as (H0 & H1 & H2).
    destruct s.
    + rewrite Z.abs_opp, Z.abs_eq by assumption. repeat split; [ lia | | ]; assumption.
    + rewrite Z.abs_eq by assumption. repeat split; assumption.
Qed.

Lemma int_of_float_finite (x : float) :
  is_finite x = true -> exists z, int_of_float x = Ok z.
Proof.
  unfold is_finite, int_of_float.
  destruct (Prim2SF x); intros H; try discriminate; eauto.
Qed.

End Truncation.

(** C1 (as amended): for every note and resolution whose products
    [position * ppq] and [duration * ppq] are finite floats, [Note.to_ticks]
    returns the two products truncated toward zero, [int(p * ppq)] and
    [int(d * ppq)] -- not rounded to the nearest tick. *)
Theorem to_ticks_truncates (note : Note) (ppq : Z) (fppq : float) :
  float_of_int ppq = Ok fppq ->
  is_finite (Note.position note * fppq) = true ->
  is_finite (Note.duration note * fppq) = true ->
  exists pos_ticks dur_ticks,
    Note.to_ticks note ppq = Ok (pos_ticks, dur_ticks)
    /\ truncation_of (Note.position note * fppq) pos_ticks
    /\ truncation_of (Note.duration note * fppq) dur_ticks.
Proof.
  intros Hppq Hp Hd.
  destruct (int_of_float_finite _ Hp) as (pos & Epos).
  destruct (int_of_float_finite _ Hd) as (dur & Edur).
  exists pos, dur. split.
  - unfold Note.to_ticks, mul_int. rewrite Hppq. simpl.
    rewrite Epos. simpl. rewrite Edur. reflexivity.
  - split; apply int_of_float_truncates; assumption.
Qed.

(** The note of the end-to-end scenario (position 2, duration 0.5) at 96
    ticks per quarter. *)
Lemma to_ticks_truncates_witness :
  exists pos_ticks dur_ticks,
    Note.to_ticks (Note.mk 2 0.5 64 0.5) 96 = Ok (pos_ticks, dur_ticks)
    /\ truncation_of (2 * 96)%float pos_ticks
    /\ truncation_of (0.5 * 96)%float dur_ticks.
Proof.
  apply (to_ticks_truncates (Note.mk 2 0.5 64 0.5) 96 96%float);
    vm_compute; reflexivity.
Defined.

(** C1 (as stated) fails: a note at 1/128 of a beat, at 96 ticks per quarter,
    lies at 0.75 ticks; the code returns tick 0 where [round] gives 1. *)
Lemma to_ticks_is_not_round :
  Note.to_ticks (Note.mk 0.0078125 0.0078125 60 1) 96 = Ok (0, 0)
  /\ spec_to_ticks (Note.mk 0.0078125 0.0078125 60 1) 96 = Ok (1, 1).
Proof. split; vm_compute; reflexivity. Qed.

(** ** The mapping layer (converters/plugin_mapper.py) *)

Section Mapping.

Lemma dict_get_In {V : Type} (d : dict V) (k : str) (v : V) :
  dict_get d k = Some v -> In v (map snd d).
Proof.
  induction d as [| [k' v'] d IH]; simpl; [ discriminate | ].
  destruct (str_eqb k k'); intros H.
  - left. congruence.
  - right. auto.
Qed.

(** No table maps a device to the empty name. *)
Lemma device_tables_nonempty (k : str) (fl : str) :
  dict_get ABLETON_TO_FL_DRUMS k = Some fl
  \/ dict_get ABLETON_TO_FL_INSTRUMENTS k = Some fl
  \/ dict_get ABLETON_TO_FL_EFFECTS k = Some fl ->
  fl <> [].
Proof.
  intros [H | [H | H]]; apply dict_get_In in H; vm_compute in H;
    repeat (destruct H as [H | H]; [ subst fl; discriminate | ]); contradiction.
Qed.

End Mapping.

(** C7 (as amended): for every non-empty device name (any [is_instrument]
    flag, any device-type tag) [ableton_to_fl] returns a non-empty string;
    the drum table is consulted first, an unmapped instrument falls back to
    the generic sampler, and an unmapped effect keeps the source name. *)
Theorem ableton_to_fl_total (ableton_name : str) (is_instrument : bool)
  (device_type : option str) :
  ableton_name <> [] ->
  let lookup_name := PluginMapper.lookup_name_of device_type ableton_name in
  let fl := PluginMapper.ableton_to_fl ableton_name is_instrument device_type in
  fl <> []
  /\ (forall drum, dict_get ABLETON_TO_FL_DRUMS lookup_name = Some drum -> fl = drum)
  /\ (dict_get ABLETON_TO_FL_DRUMS lookup_name = None ->
      is_instrument = true ->
      dict_get ABLETON_TO_FL_INSTRUMENTS lookup_name = None ->
      fl = lit "Sampler")
  /\ (dict_get ABLETON_TO_FL_DRUMS lookup_name = None ->
      is_instrument = false ->
      dict_get ABLETON_TO_FL_EFFECTS lookup_name = None ->
      fl = ableton_name).
Proof.
  intros Hname lookup_name fl. subst fl. unfold PluginMapper.ableton_to_fl.
  fold lookup_name.
  destruct (dict_get ABLETON_TO_FL_DRUMS lookup_name) as [drum |] eqn:Ed.
  - repeat split; try discriminate.
    + eapply device_tables_nonempty; eauto.
    + intros d Hd. congruence.
  - destruct is_instrument.
    + destruct (dict_get ABLETON_TO_FL_INSTRUMENTS lookup_name) as [i |] eqn:Ei;
        repeat split; try discriminate; try reflexivity.
      eapply device_tables_nonempty; eauto.
    + destruct (dict_get ABLETON_TO_FL_EFFECTS lookup_name) as [x |] eqn:Ex;
        repeat split; try discriminate; try reflexivity; try assumption.
      eapply device_tables_nonempty; eauto.
Qed.

(** An unmapped effect and a mapped one. *)
Lemma ableton_to_fl_total_witness :
  PluginMapper.ableton_to_fl (lit "Reverb") false None = lit "Fruity Reeverb 2"
  /\ PluginMapper.ableton_to_fl (lit "MyFx") false None <> [].
Proof.
  split.
  - reflexivity.
  - apply (ableton_to_fl_total (lit "MyFx") false None). discriminate.
Defined.

(** C7 (as stated) fails: the empty name with no device type, as an effect,
    is unmapped and passes through unchanged, so the result is empty. *)
Lemma ableton_to_fl_empty_name :
  PluginMapper.ableton_to_fl [] false None = [].
Proof. reflexivity. Qed.

(** The four distinct rows of the value-range table. *)
Lemma parameter_ranges_rows (name : str) (row : (Z * Z) * (Z * Z)) :
  dict_get PARAMETER_RANGES name = Some row ->
  In row [((0, 1), (0, 100)); ((-1, 1), (0, 100));
          ((20, 20000), (0, 100)); ((0, 5), (0, 100))].
Proof.
  intros H. apply dict_get_In in H. vm_compute in H. simpl.
  repeat (destruct H as [H | H]; [ subst row; tauto | ]). contradiction.
Qed.

(** C8: for a parameter of the value-range table, [map_parameter_value] is
    the affine formula evaluated in float arithmetic; the source minimum maps
    exactly to the target minimum and the source maximum exactly to the
    target maximum; nothing is clamped (Volume 2.0 maps to 200.0); and a
    parameter absent from the table is returned unchanged. *)
Theorem map_parameter_value_affine (param_name : str) (value : float) :
  match dict_get PARAMETER_RANGES param_name with
  | Some ((able_min, able_max), (fl_min, fl_max)) =>
      PluginMapper.map_parameter_value param_name value
      = Ok (float_const fl_min
            + (value - float_const able_min) / float_const (able_max - able_min)
              * float_const (fl_max - fl_min))%float
      /\ PluginMapper.map_parameter_value param_name (float_const able_min)
         = Ok (float_const fl_min)
      /\ PluginMapper.map_parameter_value param_name (float_const able_max)
         = Ok (float_const fl_max)
  | None => PluginMapper.map_parameter_value param_name value = Ok value
  end
  /\ PluginMapper.map_parameter_value (lit "Volume") 2 = Ok 200%float.
Proof.
  split; [ | vm_compute; reflexivity ].
  destruct (dict_get PARAMETER_RANGES param_name) as [row |] eqn:E.
  - pose proof (parameter_ranges_rows _ _ E) as Hrow. simpl in Hrow.
    unfold PluginMapper.map_parameter_value. rewrite E.
    destruct Hrow as [<- | [<- | [<- | [<- | []]]]];
      repeat split; vm_compute; reflexivity.
  - unfold PluginMapper.map_parameter_value. rewrite E. reflexivity.
Qed.

(** ** Blob encoders (converters/plugin_state_generator.py) *)

Section Encoders.



(** A loop that appends one record per element writes the concatenation of
    the records, and raises where the first record does. *)
Lemma for_each_traverse {A : Type} (rec : A -> result bytes) (l : list A)
  (data : bytes) :
  for_each (fun data x => r <- rec x ;; Ok (data ++ r)) l data
  = (records <- traverse rec l ;; Ok (data ++ concat records)).
Proof.
  revert data. induction l as [| x l IH]; intros data; simpl.
  - now rewrite app_nil_r.
  - destruct (rec x) as [r | e]; simpl; [ | reflexivity ].
    rewrite IH. destruct (traverse rec l); simpl; [ | reflexivity ].
    now rewrite app_assoc.
Qed.

Lemma traverse_Forall2 {A B : Type} (f : A -> result B) (l : list A) (ys : list B) :
  traverse f l = Ok ys <-> Forall2 (fun x y => f x = Ok y) l ys.
Proof.
  revert ys. induction l as [| x l IH]; intros ys; simpl.
  - split; intros H.
    + inversion H. constructor.
    + inversion H. reflexivity.
  - split; intros H.
    + bind_inv H y Ey. bind_inv H ys' Eys. inversion H; subst.
      constructor; [ assumption | ]. now apply IH.
    + inversion H as [| ? y ? ys' Hx Hl]; subst. rewrite Hx. simpl.
      apply IH in Hl. rewrite Hl. reflexivity.
Qed.

Lemma pack_I_ok (v : Z) : 0 <= v < 4294967296 -> pack_I v = Ok (le_bytes 4 v).
Proof.
  intros Hv. unfold pack_I.
  replace ((0 <=? v) && (v <? 4294967296)) with true; [ reflexivity | ].
  symmetry. apply andb_true_iff. split; [ apply Z.leb_le | apply Z.ltb_lt ]; lia.
Qed.

Lemma pack_H_ok (v : Z) : 0 <= v < 65536 -> pack_H v = Ok (le_bytes 2 v).
Proof.
  intros Hv. unfold pack_H.
  replace ((0 <=? v) && (v <? 65536)) with true; [ reflexivity | ].
  symmetry. apply andb_true_iff. split; [ apply Z.leb_le | apply Z.ltb_lt ]; lia.
Qed.










End Encoders.



(** ** The writer (writers/flstudio_writer.py) *)

(** Brings concatenations to right-nested form. *)
Ltac norm_app := repeat first [ rewrite <- !app_assoc | progress cbn [app] ].

Section WriterBytes.
Import FLStudioWriter.

(** [_write_varint] appends the encoding of the value to the buffer. *)
Lemma write_varint_appends (value : N) :
  forall data, _write_varint data value = data ++ _write_varint [] value.
Proof.
  induction value as [value IH] using (well_founded_induction N.lt_wf_0).
  intros data. rewrite (_write_varint_equation_1 data), (_write_varint_equation_1 []).
  cbv zeta. destruct (N.eq_dec (N.shiftr value 7) 0) as [Hz | Hnz].
  - reflexivity.
  - assert (Hlt : (N.shiftr value 7 < value)%N).
    { rewrite N.shiftr_div_pow2. apply N.div_lt; [ | reflexivity ].
      destruct value; [ now elim Hnz | lia ]. }
    rewrite (IH _ Hlt (data ++ _)), (IH _ Hlt ([] ++ _)).
    now rewrite <- app_assoc.
Qed.

Lemma write_varint_event (data : bytes) (id : Z) (blob : bytes) :
  _write_varint (data ++ [id]) (N.of_nat (length blob)) ++ blob
  = data ++ event_bytes (mk_event id (Blob blob)).
Proof.
  rewrite write_varint_appends. unfold event_bytes, varint. simpl.
  now rewrite <- !app_assoc.
Qed.

Lemma write_utf16le_string_event (data : bytes) (id : Z) (text : str) :
  _write_utf16le_string (data ++ [id]) text
  = (encoded <- encode_utf16le text ;;
     Ok (data ++ event_bytes (mk_event id (Blob (encoded ++ [0; 0]))))).
Proof.
  unfold _write_utf16le_string. destruct (encode_utf16le text); simpl; [ | reflexivity ].
  now rewrite write_varint_event.
Qed.

Lemma write_string_event (data : bytes) (id : Z) (text : str) :
  _write_string (data ++ [id]) text
  = (encoded <- encode_utf8 text ;;
     Ok (data ++ event_bytes (mk_event id (Blob encoded)))).
Proof.
  unfold _write_string. destruct (encode_utf8 text); simpl; [ | reflexivity ].
  now rewrite write_varint_event.
Qed.

Lemma stream_bytes_app (a b : list event) :
  stream_bytes (a ++ b) = stream_bytes a ++ stream_bytes b.
Proof. apply flat_map_app. Qed.

Lemma write_plugin_state_events (data : bytes) (plugin_state : bytes) :
  fst (write_plugin_state data plugin_state)
  = data ++ stream_bytes (EventView.plugin_events (Some plugin_state)).
Proof.
  destruct plugin_state as [| b bs]; unfold write_plugin_state; cbn [fst].
  - simpl. now rewrite app_nil_r.
  - rewrite write_varint_event. unfold EventView.plugin_events, stream_bytes.
    cbn [flat_map]. now rewrite app_nil_r.
Qed.

(** The four fixed events of a channel record, as bytes. *)
Lemma channel_prefix_bytes (data i encoded : bytes) (vol pan : Z) :
  (_write_varint (data ++ [64] ++ i ++ [203]) (N.of_nat (length (encoded ++ [0; 0])))
   ++ encoded ++ [0; 0] ++ [33] ++ [vol] ++ [34] ++ [pan])
  = data ++ stream_bytes
      [mk_event NEW_CHAN (Scalar i); mk_event 203 (Blob (encoded ++ [0; 0]));
       mk_event 33 (Scalar [vol]); mk_event 34 (Scalar [pan])].
Proof.
  rewrite write_varint_appends. unfold stream_bytes, event_bytes, varint.
  cbn [flat_map ev_id ev_payload]. unfold NEW_CHAN.
  norm_app. reflexivity.
Qed.

(** [_write_channel] appends the channel record of the track. *)
Lemma write_channel_events (data : bytes) (idx : Z) (track : Track) :
  _write_channel data idx track
  = (events <- EventView.channel_events idx track ;;
     Ok (data ++ stream_bytes events)).
Proof.
  unfold _write_channel, EventView.channel_events, append.
  destruct (pack_H idx) as [i |]; cbn [bind]; [ | reflexivity ].
  destruct (encode_utf16le (Track.name track)) as [encoded |]; cbn [bind];
    [ | reflexivity ].
  destruct (int_of_float (Track.volume track * 100)) as [vol |]; cbn [bind];
    [ | reflexivity ].
  destruct (byte_of_int (Z.min 128 (Z.max 0 vol))) as [volb |]; cbn [bind];
    [ | reflexivity ].
  destruct (int_of_float ((Track.pan track + 1) * 64)) as [pan |]; cbn [bind];
    [ | reflexivity ].
  destruct (byte_of_int (Z.min 128 (Z.max 0 pan))) as [panb |]; cbn [bind];
    [ | reflexivity ].
  rewrite <- !app_assoc. rewrite channel_prefix_bytes.
  set (fixed := [mk_event NEW_CHAN (Scalar i); _; _; _]).
  assert (Hsome : forall plugin_state,
             fst (write_plugin_state (data ++ stream_bytes fixed) plugin_state)
             = data ++ stream_bytes (fixed ++ EventView.plugin_events (Some plugin_state))).
  { intros ps. rewrite write_plugin_state_events, stream_bytes_app. now rewrite app_assoc. }
  assert (Hnone : data ++ stream_bytes fixed
                  = data ++ stream_bytes (fixed ++ EventView.plugin_events None)).
  { unfold EventView.plugin_events. now rewrite app_nil_r. }
  unfold EventView.selected_plugin_state.
  destruct (Track.instrument track) as [instrument |].
  - destruct (_map_plugin_params instrument); cbn [bind]; [ | reflexivity ].
    destruct (_generate_plugin_state _ track true _); cbn [bind]; [ | reflexivity ].
    now rewrite Hsome.
  - destruct (Track.racks track) as [| rack racks].
    + destruct (Track.has_audio track).
      * destruct (first_audio_clip track) as [audio_clip |]; cbn [bind].
        -- destruct (PluginStateFactory.generate _ _); cbn [bind]; [ | reflexivity ].
           now rewrite Hsome.
        -- now rewrite Hnone.
      * destruct (Track.has_midi track); cbn [bind].
        -- destruct (PluginStateFactory.generate _ _); cbn [bind]; [ | reflexivity ].
           now rewrite Hsome.
        -- now rewrite Hnone.
    + destruct (find Rack.is_drum_rack (rack :: racks)) as [drum |]; cbn [bind].
      * destruct (_generate_drum_rack_state drum); cbn [bind]; [ | reflexivity ].
        now rewrite Hsome.
      * now rewrite Hnone.
Qed.

(** [_write_pattern] appends the pattern record of the clip. *)
Lemma write_pattern_events (self : t) (data : bytes) (pattern_idx track_idx : Z)
  (track_name : str) (clip : Clip) :
  _write_pattern self data pattern_idx track_idx track_name clip
  = (events <- EventView.pattern_events self (pattern_idx + 1) track_idx track_name clip ;;
     Ok (data ++ stream_bytes events)).
Proof.
  unfold _write_pattern, EventView.pattern_events.
  destruct (pack_H (pattern_idx + 1)) as [i |]; cbn [bind]; [ | reflexivity ].
  rewrite write_utf16le_string_event.
  destruct (encode_utf16le _) as [encoded |]; cbn [bind]; [ | reflexivity ].
  destruct (notes_block self track_idx (Clip.notes clip)) as [note_data |];
    cbn [bind]; [ | reflexivity ].
  destruct note_data as [| b note_data].
  - unfold stream_bytes, event_bytes, NEW_PAT, PAT_NAME, EventView.notes_events.
    cbn [flat_map ev_id ev_payload app]. norm_app. now rewrite ?app_nil_r.
  - rewrite write_varint_event.
    unfold stream_bytes, event_bytes, NEW_PAT, PAT_NAME, EventView.notes_events.
    cbn [flat_map ev_id ev_payload app]. norm_app. now rewrite ?app_nil_r.
Qed.

End WriterBytes.

Section WriterLoops.
Import FLStudioWriter EventView.

Lemma number_from_app {A : Type} (l1 l2 : list A) (start : Z) :
  number_from start (l1 ++ l2)
  = number_from start l1 ++ number_from (start + len l1) l2.
Proof.
  revert start. induction l1 as [| x l1 IH]; intros start; simpl.
  - unfold len. simpl. now rewrite Z.add_0_r.
  - rewrite IH. unfold len. simpl length. do 3 f_equal. lia.
Qed.

(** The clips of one track: each MIDI clip appends its pattern record, under
    the next pattern index. *)
Lemma pattern_steps_events (self : t) (track_idx : Z) (track : Track)
  (clips : list Clip) :
  forall st st',
    for_each (pattern_step self track_idx track) clips st = Ok st' ->
    exists records,
      Forall2 (is_pattern_record self)
        (number_from (ps_pattern_count st + 1)
           (map (fun clip => (track_idx, Track.name track, clip))
                (filter Clip.is_midi clips)))
        records
      /\ ps_data st' = ps_data st ++ stream_bytes (concat records)
      /\ ps_pattern_count st'
         = ps_pattern_count st + len (filter Clip.is_midi clips).
Proof.
  induction clips as [| clip clips IH]; intros st st' H; simpl in H.
  - inversion H; subst. exists []. simpl. rewrite app_nil_r.
    repeat split; [ constructor | unfold len; simpl; lia ].
  - bind_inv H next Estep. unfold pattern_step in Estep. simpl filter.
    destruct (Clip.is_midi clip); simpl in Estep.
    + rewrite write_pattern_events in Estep.
      bind_inv Estep data Ew. bind_inv Ew record Er.
      bind_inv Estep s Es. bind_inv Estep position Ep.
      bind_inv Estep d Ed. bind_inv Estep length El.
      inversion Estep; subst next; clear Estep. inversion Ew; subst data; clear Ew.
      destruct (IH _ _ H) as (records & HF & Hdata & Hcount).
      cbn [ps_data ps_pattern_count] in *.
      exists (record :: records). simpl. repeat split.
      * constructor; [ exact Er | exact HF ].
      * rewrite Hdata. unfold stream_bytes. rewrite flat_map_app.
        now rewrite <- app_assoc.
      * rewrite Hcount. unfold len. simpl Datatypes.length. lia.
    + inversion Estep; subst next. apply IH. exact H.
Qed.

(** The PATTERNS loop: one pattern record per MIDI clip, in track order then
    clip order, under consecutive pattern indices. *)
Lemma pattern_loop_events (self : t) (tracks : list Track) :
  forall track_idx st st',
    for_enumerate
      (fun st track_idx track =>
         for_each (pattern_step self track_idx track) (Track.clips track) st)
      track_idx tracks st = Ok st' ->
    exists records,
      Forall2 (is_pattern_record self)
        (number_from (ps_pattern_count st + 1) (midi_clips_from track_idx tracks))
        records
      /\ ps_data st' = ps_data st ++ stream_bytes (concat records)
      /\ ps_pattern_count st'
         = ps_pattern_count st + len (midi_clips_from track_idx tracks).
Proof.
  induction tracks as [| track tracks IH]; intros track_idx st st' H; simpl in H.
  - inversion H; subst. exists []. simpl. rewrite app_nil_r.
    repeat split; [ constructor | unfold len; simpl; lia ].
  - bind_inv H mid E.
    destruct (pattern_steps_events _ _ _ _ _ _ E) as (here & HFh & Hdh & Hch).
    destruct (IH _ _ _ H) as (later & HFl & Hdl & Hcl).
    exists (here ++ later). simpl midi_clips_from.
    rewrite number_from_app. repeat split.
    + apply Forall2_app; [ exact HFh | ].
      unfold len in *. rewrite length_map. rewrite Hch in HFl.
      replace (ps_pattern_count st + 1
               + Z.of_nat (length (filter Clip.is_midi (Track.clips track))))
        with (ps_pattern_count st
              + Z.of_nat (length (filter Clip.is_midi (Track.clips track))) + 1)
        by lia.
      exact HFl.
    + rewrite Hdl, Hdh, concat_app, stream_bytes_app. now rewrite app_assoc.
    + rewrite Hcl, Hch. unfold len. rewrite length_app, length_map, Nat2Z.inj_add.
      now rewrite Z.add_assoc.
Qed.

(** [_normalize_track_plugins] changes at most the instrument and the
    effects of a track. *)
Lemma normalize_racks_frame (track : Track) (racks : list Rack) :
  let track' := normalize_racks track racks in
  Track.name track' = Track.name track
  /\ Track.color track' = Track.color track
  /\ Track.volume track' = Track.volume track
  /\ Track.pan track' = Track.pan track
  /\ Track.muted track' = Track.muted track
  /\ Track.solo track' = Track.solo track
  /\ Track.clips track' = Track.clips track
  /\ Track.racks track' = Track.racks track.
Proof.
  induction racks as [| rack racks IH]; simpl.
  - repeat split.
  - destruct (Rack.is_drum_rack rack); [ exact IH | ].
    destruct (Rack.rack_type rack) as [ty |]; [ | exact IH ].
    destruct (Rack.plugins rack) as [| first others]; [ exact IH | ].
    destruct (str_eqb ty (lit "InstrumentGroupDevice")); [ | exact IH ].
    repeat split.
Qed.

Lemma normalize_frame (track : Track) :
  let track' := _normalize_track_plugins track in
  Track.name track' = Track.name track
  /\ Track.color track' = Track.color track
  /\ Track.volume track' = Track.volume track
  /\ Track.pan track' = Track.pan track
  /\ Track.muted track' = Track.muted track
  /\ Track.solo track' = Track.solo track
  /\ Track.clips track' = Track.clips track
  /\ Track.racks track' = Track.racks track.
Proof.
  unfold _normalize_track_plugins. destruct (Track.instrument track).
  - repeat split.
  - apply normalize_racks_frame.
Qed.

Lemma midi_clips_normalized (tracks : list Track) :
  forall track_idx,
    midi_clips_from track_idx (map _normalize_track_plugins tracks)
    = midi_clips_from track_idx tracks.
Proof.
  induction tracks as [| track tracks IH]; intros track_idx; simpl; [ reflexivity | ].
  destruct (normalize_frame track) as (Hn & _ & _ & _ & _ & _ & Hc & _).
  simpl in Hn, Hc. now rewrite Hn, Hc, IH.
Qed.

(** The CHANNELS loop, when it ends normally: every track has been
    normalized and has its channel record written, in order. *)
Lemma write_channels_events (tracks : list Track) :
  forall data idx tracks' out,
    write_channels data idx tracks = (tracks', Ok out) ->
    tracks' = map _normalize_track_plugins tracks
    /\ exists records,
        Forall2 is_channel_record (number_from idx tracks') records
        /\ out = data ++ stream_bytes (concat records).
Proof.
  induction tracks as [| track tracks IH]; intros data idx tracks' out H; simpl in H.
  - inversion H; subst. split; [ reflexivity | ]. exists []. simpl.
    split; [ constructor | now rewrite app_nil_r ].
  - rewrite write_channel_events in H.
    destruct (channel_events idx (_normalize_track_plugins track)) as [record |] eqn:Er;
      cbn [bind] in H; [ | inversion H ].
    destruct (write_channels (data ++ stream_bytes record) (idx + 1) tracks)
      as [rest r] eqn:Erest.
    inversion H; subst; clear H.
    destruct (IH _ _ _ _ Erest) as (-> & records & HF & ->).
    split; [ reflexivity | ]. exists (record :: records). simpl. split.
    + constructor; [ exact Er | exact HF ].
    + rewrite stream_bytes_app. now rewrite app_assoc.
Qed.

(** The CHANNELS loop, however it ends: a track is left as it was or as
    [_normalize_track_plugins] makes it. *)
Lemma write_channels_frame (tracks : list Track) :
  forall data idx tracks' r,
    write_channels data idx tracks = (tracks', r) ->
    Forall2 (fun track track' =>
               track' = track \/ track' = _normalize_track_plugins track)
            tracks tracks'.
Proof.
  induction tracks as [| track tracks IH]; intros data idx tracks' r H; simpl in H.
  - inversion H. constructor.
  - destruct (_write_channel data idx (_normalize_track_plugins track)) as [data' | e].
    + destruct (write_channels data' (idx + 1) tracks) as [rest r'] eqn:Erest.
      inversion H; subst. constructor; [ now right | eapply IH; eassumption ].
    + inversion H; subst. constructor; [ now right | ].
      clear. induction tracks; constructor; auto.
Qed.

Lemma write_playlist_events (data : bytes) (items : list playlist_item) (out : bytes) :
  _write_playlist data items = Ok out ->
  exists events,
    out = data ++ stream_bytes events
    /\ Forall (fun e => exists clip_data, e = mk_event 224 (Blob clip_data)) events.
Proof.
  unfold _write_playlist. destruct items as [| item items].
  - intros H. inversion H. exists []. simpl. now rewrite app_nil_r.
  - intros H. bind_inv H clip_data Ec. inversion H. rewrite write_varint_event.
    exists [mk_event 224 (Blob clip_data)]. simpl. rewrite app_nil_r.
    split; [ reflexivity | ]. constructor; [ now exists clip_data | constructor ].
Qed.

End WriterLoops.

Section WriterEvents.
Import FLStudioWriter EventView.

Lemma pack_H_inv (v : Z) (b : bytes) :
  pack_H v = Ok b -> b = le_bytes 2 v /\ 0 <= v < 65536.
Proof.
  unfold pack_H. destruct ((0 <=? v) && (v <? 65536)) eqn:E; intros H; inversion H.
  apply andb_true_iff in E. destruct E as [E1 E2].
  apply Z.leb_le in E1. apply Z.ltb_lt in E2. split; [ reflexivity | lia ].
Qed.

Lemma pack_I_inv (v : Z) (b : bytes) :
  pack_I v = Ok b -> b = le_bytes 4 v /\ 0 <= v < 4294967296.
Proof.
  unfold pack_I. destruct ((0 <=? v) && (v <? 4294967296)) eqn:E; intros H; inversion H.
  apply andb_true_iff in E. destruct E as [E1 E2].
  apply Z.leb_le in E1. apply Z.ltb_lt in E2. split; [ reflexivity | lia ].
Qed.


Lemma global_events_shape (transproj : TransProj) (globals : list event) :
  global_events transproj = Ok globals ->
  exists version bpm title,
    int_of_float (TransProj.tempo transproj) = Ok bpm
    /\ 0 <= bpm < 65536
    /\ globals = [mk_event 199 (Blob version); mk_event 156 (Scalar (le_bytes 4 12345));
                  mk_event TEMPO (Scalar (le_bytes 2 bpm))] ++ title
    /\ Forall (fun e => exists text, e = mk_event 206 (Blob text)) title.
Proof.
  unfold global_events. intros H.
  bind_inv H version Ev. bind_inv H project_id Ep. bind_inv H bpm Eb.
  bind_inv H tempo Et. bind_inv H title Ett. inversion H; subst globals.
  apply pack_H_inv in Et as [-> Hb]. apply pack_I_inv in Ep as [-> _].
  exists version, bpm, title.
  repeat match goal with |- _ /\ _ => split end; try assumption; try lia;
    try reflexivity.
  destruct (TransProj.name transproj).
  - inversion Ett. constructor.
  - bind_inv Ett encoded Ee. inversion Ett.
    constructor; [ eexists; reflexivity | constructor ].
Qed.

Lemma channel_events_ids (idx : Z) (track : Track) (record : list event) :
  channel_events idx track = Ok record ->
  Forall (fun e => In (ev_id e) [NEW_CHAN; 203; 33; 34; CHAN_PLUGIN]) record.
Proof.
  unfold channel_events. intros H.
  bind_inv H i Ei. bind_inv H encoded Ee. bind_inv H vol Ev.
  bind_inv H volb Evb. bind_inv H pan Ep. bind_inv H panb Epb.
  bind_inv H selected Es. inversion H; subst record. clear H.
  do 4 (constructor; [ simpl; tauto | ]).
  destruct selected as [[| b bs] |]; simpl; repeat constructor; simpl; tauto.
Qed.

Lemma pattern_events_shape (self : t) (pattern_id track_idx : Z) (track_name : str)
  (clip : Clip) (record : list event) :
  pattern_events self pattern_id track_idx track_name clip = Ok record ->
  exists encoded note_data,
    0 <= pattern_id < 65536
    /\ encode_utf16le (pattern_name_of track_name clip) = Ok encoded
    /\ notes_block self track_idx (Clip.notes clip) = Ok note_data
    /\ record = [mk_event NEW_PAT (Scalar (le_bytes 2 pattern_id));
                 mk_event PAT_NAME (Blob (encoded ++ [0; 0]))]
                ++ notes_events note_data.
Proof.
  unfold pattern_events. intros H.
  bind_inv H i Ei. bind_inv H encoded Ee. bind_inv H note_data En.
  inversion H; subst record. apply pack_H_inv in Ei as [-> Hi].
  exists encoded, note_data. repeat split; try assumption; lia.
Qed.

Lemma pattern_events_ids (self : t) (pattern_id track_idx : Z) (track_name : str)
  (clip : Clip) (record : list event) :
  pattern_events self pattern_id track_idx track_name clip = Ok record ->
  Forall (fun e => In (ev_id e) [NEW_PAT; PAT_NAME; 203]) record.
Proof.
  intros H. apply pattern_events_shape in H as (encoded & note_data & _ & _ & _ & ->).
  cbn [app]. do 2 (constructor; [ simpl; tauto | ]).
  destruct note_data; simpl; repeat constructor; simpl; tauto.
Qed.

(** A property of the events of every record holds of their concatenation. *)
Lemma Forall2_concat {A : Type} (R : A -> list event -> Prop) (P : event -> Prop)
  (entries : list A) (records : list (list event)) :
  (forall entry record, R entry record -> Forall P record) ->
  Forall2 R entries records -> Forall P (concat records).
Proof.
  intros HR HF. induction HF as [| entry record entries records Hr _ IH]; simpl.
  - constructor.
  - apply Forall_app. split; [ eapply HR; eassumption | exact IH ].
Qed.

End WriterEvents.

(** ** Reading the event stream back *)

Section ReadBack.
Import FLStudioWriter EventView.

Lemma varint_unfold (value : N) :
  _write_varint [] value
  = if N.eqb (N.shiftr value 7) 0 then [Z.of_N (N.land value 127)]
    else Z.of_N (N.lor (N.land value 127) 128) :: _write_varint [] (N.shiftr value 7).
Proof.
  rewrite _write_varint_equation_1 at 1. cbv zeta.
  destruct (N.eqb_spec (N.shiftr value 7) 0) as [Hz | Hnz];
    destruct (N.eq_dec _ 0) as [Hz' | Hnz'].
  - reflexivity.
  - elim Hnz'. exact Hz.
  - elim Hnz. exact Hz'.
  - now rewrite write_varint_appends.
Qed.

Lemma read_write_varint (value : N) :
  forall rest, read_varint (_write_varint [] value ++ rest) = Some (Z.of_N value, rest).
Proof.
  induction value as [value IH] using (well_founded_induction N.lt_wf_0).
  intros rest. rewrite varint_unfold.
  assert (Hmod : N.land value 127 = (value mod 128)%N)
    by (change 127%N with (N.ones 7); apply N.land_ones).
  assert (Hdiv : N.shiftr value 7 = (value / 128)%N) by apply N.shiftr_div_pow2.
  assert (Hlor : N.lor (N.land value 127) 128 = (value mod 128 + 128)%N).
  { rewrite <- N.lxor_lor, <- N.add_nocarry_lxor, Hmod; trivial;
      rewrite <- N.land_assoc; apply N.land_0_r. }
  rewrite Hlor, Hmod, Hdiv. clear Hlor Hmod Hdiv.
  assert (Hlt : (value mod 128 < 128)%N) by (apply N.mod_lt; discriminate).
  pose proof (N.div_mod value 128 ltac:(discriminate)) as Hdm.
  destruct (N.eqb_spec (value / 128) 0) as [Hz | Hnz]; cbn [app read_varint].
  - replace (Z.of_N (value mod 128) <? 128) with true
      by (symmetry; apply Z.ltb_lt; clear - Hlt; lia).
    do 2 f_equal. rewrite Hz in Hdm. rewrite Hdm at 2. now rewrite N.mul_0_r.
  - replace (Z.of_N (value mod 128 + 128) <? 128) with false
      by (symmetry; apply Z.ltb_ge; rewrite N2Z.inj_add;
          pose proof (N2Z.is_nonneg (value mod 128)); lia).
    rewrite IH.
    + do 2 f_equal. rewrite Hdm at 3.
      rewrite !N2Z.inj_add, N2Z.inj_mul. change (Z.of_N 128) with 128. ring.
    + apply N.div_lt; [ | reflexivity ].
      destruct value; [ now elim Hnz | lia ].
Qed.

Lemma event_bytes_length (e : event) : (1 <= length (event_bytes e))%nat.
Proof. unfold event_bytes. destruct (ev_payload e); simpl; lia. Qed.

Lemma stream_bytes_length (events : list event) :
  (length events <= length (stream_bytes events))%nat.
Proof.
  induction events as [| e events IH]; simpl; [ lia | ].
  rewrite length_app. pose proof (event_bytes_length e). lia.
Qed.

(** Reading inverts [stream_bytes] on events of the announced shapes. *)
Lemma read_events_within_stream (events : list event) :
  forall fuel,
    Forall well_shaped events ->
    (length events <= fuel)%nat ->
    read_events_within fuel (stream_bytes events) = Some events.
Proof.
  induction events as [| e events IH]; intros fuel Hws Hfuel.
  - destruct fuel; reflexivity.
  - inversion Hws as [| ? ? He Hrest]; subst.
    destruct fuel as [| fuel]; [ simpl in Hfuel; lia | ].
    assert (IH' : read_events_within fuel (stream_bytes events) = Some events)
      by (apply IH; [ assumption | simpl in Hfuel; lia ]).
    destruct e as [id payload]. unfold well_shaped in He. cbn [ev_id ev_payload] in He.
    simpl stream_bytes. unfold event_bytes. cbn [ev_id ev_payload].
    destruct payload as [b | b]; destruct (shape_of id) as [[width |] |] eqn:Es;
      try contradiction; cbn [app read_events_within]; rewrite Es.
    + subst width. rewrite length_app.
      replace (length b + length (stream_bytes events) <? length b)%nat with false
        by (symmetry; apply Nat.ltb_ge; lia).
      rewrite firstn_app, firstn_all, Nat.sub_diag, skipn_app, skipn_all, Nat.sub_diag.
      simpl. rewrite app_nil_r, IH'. reflexivity.
    + rewrite <- app_assoc. unfold varint. rewrite read_write_varint.
      rewrite nat_N_Z, Nat2Z.id, length_app.
      replace (length b + length (stream_bytes events) <? length b)%nat with false
        by (symmetry; apply Nat.ltb_ge; lia).
      rewrite firstn_app, firstn_all, Nat.sub_diag, skipn_app, skipn_all, Nat.sub_diag.
      simpl. rewrite app_nil_r, IH'. reflexivity.
Qed.

Lemma read_events_stream (events : list event) :
  Forall well_shaped events -> read_events (stream_bytes events) = Some events.
Proof.
  intros Hws. apply read_events_within_stream; [ assumption | ].
  apply stream_bytes_length.
Qed.

End ReadBack.

(** ** Every event the writer emits has the shape its tag announces *)

Section WellShaped.
Import FLStudioWriter EventView.

Lemma global_events_well_shaped (transproj : TransProj) (globals : list event) :
  global_events transproj = Ok globals -> Forall well_shaped globals.
Proof.
  intros H.
  apply global_events_shape in H as (version & bpm & title & _ & _ & -> & Ht).
  cbn [app]. do 3 (constructor; [ exact I || reflexivity | ]).
  eapply Forall_impl; [ | exact Ht ]. intros e (text & ->). exact I.
Qed.

Lemma channel_events_well_shaped (idx : Z) (track : Track) (record : list event) :
  channel_events idx track = Ok record -> Forall well_shaped record.
Proof.
  unfold channel_events. intros H.
  bind_inv H i Ei. bind_inv H encoded Ee. bind_inv H vol Ev.
  bind_inv H volb Evb. bind_inv H pan Ep. bind_inv H panb Epb.
  bind_inv H selected Es. inversion H; subst record. clear H.
  apply pack_H_inv in Ei as [-> _].
  do 4 (constructor; [ exact I || reflexivity | ]).
  destruct selected as [[| b bs] |]; simpl; repeat constructor.
Qed.

Lemma pattern_events_well_shaped (self : t) (pattern_id track_idx : Z)
  (track_name : str) (clip : Clip) (record : list event) :
  pattern_events self pattern_id track_idx track_name clip = Ok record ->
  Forall well_shaped record.
Proof.
  intros H. apply pattern_events_shape in H as (encoded & note_data & _ & _ & _ & ->).
  cbn [app]. do 2 (constructor; [ exact I || reflexivity | ]).
  destruct note_data; simpl; repeat constructor.
Qed.

End WellShaped.

Section WriterBuild.
Import FLStudioWriter EventView.

(** The header and the block tag take 18 bytes: [data_start] is 18. *)
Lemma write_header_length (self : t) (transproj : TransProj) (header : bytes) :
  write_header self transproj = Ok header -> length header = 18%nat.
Proof.
  unfold write_header. intros H.
  bind_inv H size Es. bind_inv H format Ef. bind_inv H channels Ec.
  bind_inv H resolution Er. inversion H; subst header.
  apply pack_I_inv in Es as [-> _]. apply pack_H_inv in Ef as [-> _].
  apply pack_H_inv in Ec as [-> _]. apply pack_H_inv in Er as [-> _].
  reflexivity.
Qed.

(** [write_globals] appends the size placeholder and the global events. *)
Lemma write_globals_events (data : bytes) (transproj : TransProj) :
  write_globals data transproj
  = (globals <- global_events transproj ;;
     Ok (data ++ le_bytes 4 0 ++ stream_bytes globals)).
Proof.
  unfold write_globals, global_events.
  change (pack_I 0) with (Ok (le_bytes 4 0)). cbn [bind].
  rewrite write_string_event.
  destruct (encode_utf8 (lit "21.0.3")) as [version |]; cbn [bind]; [ | reflexivity ].
  change (pack_I 12345) with (Ok (le_bytes 4 12345)). cbn [bind].
  destruct (int_of_float (TransProj.tempo transproj)) as [bpm |]; cbn [bind];
    [ | reflexivity ].
  destruct (pack_H bpm) as [tempo |]; cbn [bind]; [ | reflexivity ].
  destruct (TransProj.name transproj) as [| c name].
  - cbn [bind]. unfold stream_bytes, event_bytes, TEMPO.
    cbn [flat_map ev_id ev_payload app]. norm_app. now rewrite ?app_nil_r.
  - rewrite write_utf16le_string_event.
    destruct (encode_utf16le (c :: name)) as [encoded |]; cbn [bind]; [ | reflexivity ].
    unfold stream_bytes, event_bytes, TEMPO.
    cbn [flat_map ev_id ev_payload app]. norm_app. now rewrite ?app_nil_r.
Qed.

Lemma pack_into_patch (head old new rest : bytes) :
  length old = length new ->
  pack_into (head ++ old ++ rest) (length head) new = head ++ new ++ rest.
Proof.
  intros Hlen. unfold pack_into.
  rewrite firstn_app, firstn_all, Nat.sub_diag. simpl firstn. rewrite app_nil_r.
  do 2 f_equal. rewrite <- Hlen.
  rewrite skipn_app, skipn_all2 by lia.
  replace (length head + length old - length head)%nat with (length old) by lia.
  rewrite skipn_app, skipn_all, Nat.sub_diag. reflexivity.
Qed.

(** The output of a successful [_build_flp_binary]: the 18-byte header, the
    4-byte block size, and the event stream -- the global events, one channel
    record per (normalized) track, one pattern record per MIDI clip under the
    indices 1, 2, ..., and the playlist event. *)
Lemma build_events (self : t) (transproj transproj' : TransProj) (out : bytes) :
  _build_flp_binary self transproj = (transproj', Ok out) ->
  exists header size globals channels patterns playlist,
    write_header self transproj = Ok header
    /\ length header = 18%nat
    /\ length size = 4%nat
    /\ out = header ++ size
             ++ stream_bytes (globals ++ concat channels ++ concat patterns ++ playlist)
    /\ global_events transproj = Ok globals
    /\ transproj'
       = with_tracks transproj (map _normalize_track_plugins (TransProj.tracks transproj))
    /\ Forall2 is_channel_record (number_from 0 (TransProj.tracks transproj')) channels
    /\ Forall2 (is_pattern_record self) (number_from 1 (midi_clips transproj)) patterns
    /\ Forall (fun e => exists clip_data, e = mk_event 224 (Blob clip_data)) playlist
    /\ read_events (skipn 22 out)
       = Some (globals ++ concat channels ++ concat patterns ++ playlist).
Proof.
  unfold _build_flp_binary. intros H.
  destruct (write_header self transproj) as [header |] eqn:Eh; [ | inversion H ].
  rewrite write_globals_events in H.
  destruct (global_events transproj) as [globals |] eqn:Eg; cbn [bind] in H;
    [ | inversion H ].
  destruct (write_channels _ 0 (TransProj.tracks transproj)) as [tracks r] eqn:Ec.
  inversion H as [[Hproj Hout]]; clear H.
  bind_inv Hout data Er. subst r.
  destruct (write_channels_events _ _ _ _ _ Ec) as (-> & channels & HFc & ->).
  bind_inv Hout st Ep. unfold write_patterns in Ep.
  destruct (pattern_loop_events _ _ _ _ _ Ep) as (patterns & HFp & Hdata & _).
  cbn [ps_data ps_pattern_count] in HFp, Hdata.
  bind_inv Hout final Epl.
  destruct (write_playlist_events _ _ _ Epl) as (playlist & -> & Hpl).
  bind_inv Hout size Es. inversion Hout; subst out; clear Hout.
  apply pack_I_inv in Es as [-> _].
  pose proof (write_header_length _ _ _ Eh) as Hlen.
  exists header, (le_bytes 4 (len (ps_data st ++ stream_bytes playlist)
                               - Z.of_nat (length header) - 4)),
    globals, channels, patterns, playlist.
  rewrite midi_clips_normalized in HFp.
  assert (Hout : pack_into (ps_data st ++ stream_bytes playlist) (length header)
                   (le_bytes 4 (len (ps_data st ++ stream_bytes playlist)
                                - Z.of_nat (length header) - 4))
                 = header
                   ++ le_bytes 4 (len (ps_data st ++ stream_bytes playlist)
                                  - Z.of_nat (length header) - 4)
                   ++ stream_bytes
                        (globals ++ concat channels ++ concat patterns ++ playlist)).
  { rewrite Hdata at 1. rewrite <- ?app_assoc.
    rewrite pack_into_patch by reflexivity.
    rewrite !stream_bytes_app. now rewrite <- ?app_assoc. }
  repeat match goal with |- _ /\ _ => split end; try assumption; try reflexivity.
  rewrite Hout.
  set (size := le_bytes 4 _).
  replace 22%nat with (length (header ++ size)) by (rewrite length_app, Hlen; reflexivity).
  rewrite app_assoc, skipn_app, skipn_all, Nat.sub_diag. cbn [app skipn].
  apply read_events_stream.
  repeat (apply Forall_app; split).
  - eapply global_events_well_shaped; eassumption.
  - eapply Forall2_concat; [ | exact HFc ].
    intros [idx track] record. apply channel_events_well_shaped.
  - eapply Forall2_concat; [ | exact HFp ].
    intros [k [[track_idx track_name] clip]] record. apply pattern_events_well_shaped.
  - eapply Forall_impl; [ | exact Hpl ]. intros e (clip_data & ->). exact I.
Qed.

End WriterBuild.

Section WriterClaims.
Import FLStudioWriter EventView.

Lemma filter_has_id_none (id : Z) (events : list event) :
  Forall (fun e => ev_id e <> id) events -> filter (has_id id) events = [].
Proof.
  induction 1 as [| e events He _ IH]; simpl; [ reflexivity | ].
  unfold has_id at 1. destruct (Z.eqb_spec (ev_id e) id); [ contradiction | exact IH ].
Qed.

Lemma channel_records_ids (entries : list (Z * Track)) (channels : list (list event)) :
  Forall2 is_channel_record entries channels ->
  Forall (fun e => In (ev_id e) [NEW_CHAN; 203; 33; 34; CHAN_PLUGIN]) (concat channels).
Proof.
  apply Forall2_concat. intros [idx track] record. apply channel_events_ids.
Qed.

Lemma pattern_records_ids (self : t) (entries : list (Z * (Z * str * Clip)))
  (patterns : list (list event)) :
  Forall2 (is_pattern_record self) entries patterns ->
  Forall (fun e => In (ev_id e) [NEW_PAT; PAT_NAME; 203]) (concat patterns).
Proof.
  apply Forall2_concat. intros [k [[track_idx track_name] clip]] record.
  apply pattern_events_ids.
Qed.

End WriterClaims.

(** C3: the event stream of the binary writer's output -- the bytes behind
    the 18-byte header and the 4-byte block size, read back event by event --
    holds exactly one tempo event; it stands among the global events, before
    every channel record, and no event of a channel record, of a pattern
    record or of the playlist is a tempo event. *)
Theorem tempo_event_exactly_once (self : FLStudioWriter.t)
  (transproj transproj' : TransProj) (out : bytes) :
  FLStudioWriter._build_flp_binary self transproj = (transproj', Ok out) ->
  exists header size before bpm title channels patterns playlist,
    let tempo := mk_event TEMPO (Scalar (le_bytes 2 bpm)) in
    let events :=
      before ++ [tempo] ++ title ++ concat channels ++ concat patterns ++ playlist in
    length header = 18%nat
    /\ length size = 4%nat
    /\ out = header ++ size ++ stream_bytes events
    /\ read_events (skipn 22 out) = Some events
    /\ EventView.global_events transproj = Ok (before ++ [tempo] ++ title)
    /\ int_of_float (TransProj.tempo transproj) = Ok bpm
    /\ filter (has_id TEMPO) events = [tempo]
    /\ Forall (fun e => ev_id e <> NEW_CHAN) (before ++ [tempo] ++ title)
    /\ Forall2 EventView.is_channel_record
         (EventView.number_from 0 (TransProj.tracks transproj')) channels
    /\ Forall2 (EventView.is_pattern_record self)
         (EventView.number_from 1 (EventView.midi_clips transproj)) patterns
    /\ Forall (Forall (fun e => ev_id e <> TEMPO)) patterns.
Proof.
  intros H.
  destruct (build_events _ _ _ _ H)
    as (header & size & globals & channels & patterns & playlist
        & _ & Hh & Hs & -> & Hg & _ & HFc & HFp & Hpl & Hread).
  destruct (global_events_shape _ _ Hg) as (version & bpm & title & Eb & _ & -> & Ht).
  exists header, size,
    [mk_event 199 (Blob version); mk_event 156 (Scalar (le_bytes 4 12345))],
    bpm, title, channels, patterns, playlist.
  cbv zeta.
  assert (Htitle : Forall (fun e => ev_id e <> TEMPO) title).
  { eapply Forall_impl; [ | exact Ht ]. intros e (text & ->). discriminate. }
  assert (Hchan : Forall (fun e => ev_id e <> TEMPO) (concat channels)).
  { eapply Forall_impl; [ | exact (channel_records_ids _ _ HFc) ].
    intros e He. simpl in He. unfold NEW_CHAN, CHAN_PLUGIN, TEMPO in *. lia. }
  assert (Hpat : Forall (fun e => ev_id e <> TEMPO) (concat patterns)).
  { eapply Forall_impl; [ | exact (pattern_records_ids _ _ _ HFp) ].
    intros e He. simpl in He. unfold NEW_PAT, PAT_NAME, TEMPO in *. lia. }
  assert (Hplay : Forall (fun e => ev_id e <> TEMPO) playlist).
  { eapply Forall_impl; [ | exact Hpl ]. intros e (clip_data & ->). discriminate. }
  repeat match goal with |- _ /\ _ => split end; try assumption.
  - now rewrite <- !app_assoc.
  - cbn [app filter has_id ev_id]. unfold TEMPO. cbn [Z.eqb Pos.eqb].
    rewrite !filter_app, !filter_has_id_none by assumption. reflexivity.
  - repeat (constructor; [ discriminate | ]).
    eapply Forall_impl; [ | exact Ht ]. intros e (text & ->). discriminate.
  - apply Forall_concat. exact Hpat.
Qed.

(** The end-to-end scenario: tempo 128, one tempo event. *)
Lemma tempo_event_exactly_once_witness :
  exists out header size before title channels patterns playlist,
    let tempo := mk_event TEMPO (Scalar [128; 0]) in
    let events :=
      before ++ [tempo] ++ title ++ concat channels ++ concat patterns ++ playlist in
    snd (FLStudioWriter._build_flp_binary (FLStudioWriter.mk 96 false) scenario_project)
    = Ok out
    /\ out = header ++ size ++ stream_bytes events
    /\ filter (has_id TEMPO) events = [tempo]
    /\ length channels = 1%nat
    /\ length patterns = 1%nat.
Proof.
  assert (Hok : is_ok (snd (FLStudioWriter._build_flp_binary
                              (FLStudioWriter.mk 96 false) scenario_project)) = true)
    by (vm_compute; reflexivity).
  destruct (FLStudioWriter._build_flp_binary (FLStudioWriter.mk 96 false) scenario_project)
    as [transproj' [out | e]] eqn:E; [ | discriminate ].
  destruct (tempo_event_exactly_once _ _ _ _ E)
    as (header & size & before & bpm & title & channels & patterns & playlist
        & _ & _ & Hout & _ & _ & Hbpm & Hone & _ & HFc & HFp & _).
  vm_compute in Hbpm. inversion Hbpm; subst bpm.
  exists out, header, size, before, title, channels, patterns, playlist.
  cbv zeta. repeat split; try assumption.
  - apply Forall2_length in HFc. rewrite <- HFc.
    assert (Ht : transproj' = fst (FLStudioWriter._build_flp_binary
                                     (FLStudioWriter.mk 96 false) scenario_project))
      by now rewrite E.
    rewrite Ht. vm_compute. reflexivity.
  - apply Forall2_length in HFp. rewrite <- HFp. reflexivity.
Defined.

Section PatternIndices.
Import FLStudioWriter EventView.

Lemma number_from_fst {A : Type} (l : list A) :
  forall start : nat,
    map fst (number_from (Z.of_nat start) l) = map Z.of_nat (seq start (length l)).
Proof.
  induction l as [| x l IH]; intros start; simpl; [ reflexivity | ].
  f_equal. rewrite <- IH. do 2 f_equal. lia.
Qed.

(** The pattern-start events of the pattern records carry the numbers the
    clips were given, in order. *)
Lemma pattern_records_ids_in_order (self : t) (entries : list (Z * (Z * str * Clip)))
  (patterns : list (list event)) :
  Forall2 (is_pattern_record self) entries patterns ->
  pattern_ids (concat patterns)
  = map (fun k => Scalar (le_bytes 2 k)) (map fst entries)
  /\ Forall (fun k => 0 <= k < 65536) (map fst entries).
Proof.
  induction 1 as [| [k [[track_idx track_name] clip]] record entries patterns Hr _ IH].
  - split; [ reflexivity | constructor ].
  - apply pattern_events_shape in Hr as (encoded & note_data & Hk & _ & _ & ->).
    destruct IH as [IHids IHk]. split; [ | constructor; assumption ].
    unfold pattern_ids in *. rewrite concat_cons, !filter_app, !map_app, IHids.
    destruct note_data; reflexivity.
Qed.

End PatternIndices.

(** C4: the writer emits exactly one pattern record per MIDI clip (none for
    an audio clip), in track order then clip order, and the pattern-start
    events of the event stream, read back from the output, carry exactly the
    indices 1, 2, ..., n, where n is the number of MIDI clips: one-based,
    increasing by one, never 0. *)
Theorem one_pattern_per_midi_clip (self : FLStudioWriter.t)
  (transproj transproj' : TransProj) (out : bytes) :
  FLStudioWriter._build_flp_binary self transproj = (transproj', Ok out) ->
  exists header size before patterns after,
    let events := before ++ concat patterns ++ after in
    length header = 18%nat
    /\ length size = 4%nat
    /\ out = header ++ size ++ stream_bytes events
    /\ read_events (skipn 22 out) = Some events
    /\ Forall2 (EventView.is_pattern_record self)
         (EventView.number_from 1 (EventView.midi_clips transproj)) patterns
    /\ Forall (fun e => ev_id e <> NEW_PAT) (before ++ after)
    /\ pattern_ids events = indices_from_one (length (EventView.midi_clips transproj))
    /\ len (EventView.midi_clips transproj) < 65536.
Proof.
  intros H.
  destruct (build_events _ _ _ _ H)
    as (header & size & globals & channels & patterns & playlist
        & _ & Hh & Hs & -> & Hg & _ & HFc & HFp & Hpl & Hread).
  exists header, size, (globals ++ concat channels), patterns, playlist.
  cbv zeta.
  assert (Hglob : Forall (fun e => ev_id e <> NEW_PAT) globals).
  { destruct (global_events_shape _ _ Hg) as (v & bpm & title & _ & _ & -> & Ht).
    repeat (constructor; [ discriminate | ]).
    eapply Forall_impl; [ | exact Ht ]. intros e (text & ->). discriminate. }
  assert (Hchan : Forall (fun e => ev_id e <> NEW_PAT) (concat channels)).
  { eapply Forall_impl; [ | exact (channel_records_ids _ _ HFc) ].
    intros e He. simpl in He. unfold NEW_CHAN, CHAN_PLUGIN, NEW_PAT in *. lia. }
  assert (Hplay : Forall (fun e => ev_id e <> NEW_PAT) playlist).
  { eapply Forall_impl; [ | exact Hpl ]. intros e (clip_data & ->). discriminate. }
  destruct (pattern_records_ids_in_order _ _ _ HFp) as [Hids Hrange].
  change 1 with (Z.of_nat 1) in Hids, Hrange. rewrite number_from_fst in Hids, Hrange.
  repeat match goal with |- _ /\ _ => split end; try assumption.
  - now rewrite <- !app_assoc.
  - rewrite Hread. now rewrite <- !app_assoc.
  - rewrite <- app_assoc. repeat (apply Forall_app; split); assumption.
  - unfold pattern_ids in *. rewrite !filter_app, !map_app.
    rewrite (filter_has_id_none _ globals), (filter_has_id_none _ (concat channels)),
      (filter_has_id_none _ playlist) by assumption.
    simpl. rewrite app_nil_r.
    rewrite Hids. unfold indices_from_one. now rewrite map_map.
  - unfold len.
    destruct (length (EventView.midi_clips transproj)) as [| n] eqn:En; [ reflexivity | ].
    rewrite Forall_forall in Hrange.
    apply (Hrange (Z.of_nat (S n))). apply in_map. apply in_seq. lia.
Qed.

(** The end-to-end scenario: one MIDI clip, one pattern, index 1. *)
Lemma one_pattern_per_midi_clip_witness :
  exists out header size before patterns after,
    snd (FLStudioWriter._build_flp_binary (FLStudioWriter.mk 96 false) scenario_project)
    = Ok out
    /\ out = header ++ size ++ stream_bytes (before ++ concat patterns ++ after)
    /\ length patterns = 1%nat
    /\ pattern_ids (before ++ concat patterns ++ after) = [Scalar [1; 0]].
Proof.
  assert (Hok : is_ok (snd (FLStudioWriter._build_flp_binary
                              (FLStudioWriter.mk 96 false) scenario_project)) = true)
    by (vm_compute; reflexivity).
  destruct (FLStudioWriter._build_flp_binary (FLStudioWriter.mk 96 false) scenario_project)
    as [transproj' [out | e]] eqn:E; [ | discriminate ].
  destruct (one_pattern_per_midi_clip _ _ _ _ E)
    as (header & size & before & patterns & after
        & _ & _ & Hout & _ & HFp & _ & Hids & _).
  exists out, header, size, before, patterns, after.
  repeat split; try assumption.
  apply Forall2_length in HFp. rewrite <- HFp. reflexivity.
Defined.

(** ** Note records of a pattern *)

Section NoteRecords.
Import FLStudioWriter EventView.

Lemma length_le_bytes (n : nat) (v : Z) : length (le_bytes n v) = n.
Proof. revert v. induction n as [| n IH]; intros v; simpl; [ | rewrite IH ]; reflexivity. Qed.

(** The writes into the 24 zero bytes, for fields of the right widths. *)
Lemma note_bytes_layout (p f c d : bytes) (k v : Z) :
  length p = 4%nat -> length f = 2%nat -> length c = 2%nat -> length d = 4%nat ->
  pack_into
    (pack_into
       (pack_into
          (pack_into
             (pack_into (pack_into (pack_into (repeat 0 24) 0 p) 4 f) 6 c) 8 d)
          12 [k])
       16 [64])
    17 [v]
  = p ++ f ++ c ++ d ++ [k; 0; 0; 0; 64; v; 0; 0; 0; 0; 0; 0].
Proof.
  intros Hp Hf Hc Hd.
  destruct p as [| p0 [| p1 [| p2 [| p3 [| ? ?]]]]]; try discriminate.
  destruct f as [| f0 [| f1 [| ? ?]]]; try discriminate.
  destruct c as [| c0 [| c1 [| ? ?]]]; try discriminate.
  destruct d as [| d0 [| d1 [| d2 [| d3 [| ? ?]]]]]; try discriminate.
  reflexivity.
Qed.

Lemma byte_of_int_inv (v b : Z) : byte_of_int v = Ok b -> b = v /\ 0 <= v < 256.
Proof.
  unfold byte_of_int, is_byte.
  destruct ((0 <=? v) && (v <? 256)) eqn:E; intros H; inversion H.
  apply andb_true_iff in E. destruct E as [E1 E2].
  apply Z.leb_le in E1. apply Z.ltb_lt in E2. split; [ reflexivity | lia ].
Qed.

Lemma byte_of_int_ok (v : Z) : 0 <= v < 256 -> byte_of_int v = Ok v.
Proof.
  intros Hv. unfold byte_of_int, is_byte.
  replace ((0 <=? v) && (v <? 256)) with true; [ reflexivity | ].
  symmetry. apply andb_true_iff. split; [ apply Z.leb_le | apply Z.ltb_lt ]; lia.
Qed.

(** [note_record] returns exactly the note records, laid out as
    [note_layout] says. *)
Lemma note_record_layout (self : t) (track_idx : Z) (note : Note) (record : bytes) :
  note_record self track_idx note = Ok record
  <-> is_note_record self track_idx note record.
Proof.
  unfold note_record, is_note_record. split.
  - intros H. bind_inv H ticks Et. destruct ticks as [pos dur].
    bind_inv H p Ep. bind_inv H f Ef. bind_inv H c Ec. bind_inv H d Ed.
    bind_inv H k Ek. bind_inv H vel Ev. bind_inv H v Evb.
    inversion H; subst record; clear H.
    apply pack_I_inv in Ep as [-> Hp]. apply pack_H_inv in Ef as [-> _].
    apply pack_H_inv in Ec as [-> Hc]. apply pack_I_inv in Ed as [-> Hd].
    apply byte_of_int_inv in Ek as [-> Hk]. apply byte_of_int_inv in Evb as [-> Hv].
    exists pos, dur, vel.
    repeat match goal with |- _ /\ _ => split end; try assumption; try lia.
    rewrite note_bytes_layout by apply length_le_bytes. reflexivity.
  - intros (pos & dur & vel & Et & Ev & Hp & Hc & Hd & Hk & Hv & ->).
    rewrite Et. cbn [bind].
    rewrite (pack_I_ok pos), (pack_H_ok 0), (pack_H_ok track_idx), (pack_I_ok dur)
      by lia.
    cbn [bind]. rewrite (byte_of_int_ok (Note.key note)) by lia. cbn [bind].
    rewrite Ev. cbn [bind]. rewrite (byte_of_int_ok vel) by lia. cbn [bind].
    rewrite note_bytes_layout by apply length_le_bytes. reflexivity.
Qed.

(** [notes_block] is the concatenation of the note records, in clip order. *)
Lemma notes_block_records (self : t) (track_idx : Z) (notes : list Note)
  (note_data : bytes) :
  notes_block self track_idx notes = Ok note_data
  <-> exists records,
      Forall2 (is_note_record self track_idx) notes records
      /\ note_data = concat records.
Proof.
  unfold notes_block. rewrite for_each_traverse. split.
  - intros H. bind_inv H records Er. inversion H; subst note_data.
    exists records. split; [ | reflexivity ].
    apply traverse_Forall2 in Er.
    eapply Forall2_impl; [ | exact Er ]. intros note r. apply note_record_layout.
  - intros (records & HF & ->).
    assert (Er : traverse (note_record self track_idx) notes = Ok records).
    { apply traverse_Forall2. eapply Forall2_impl; [ | exact HF ].
      intros note r. apply note_record_layout. }
    rewrite Er. reflexivity.
Qed.

Lemma concat_note_records_nil (self : t) (track_idx : Z) (notes : list Note)
  (records : list bytes) :
  Forall2 (is_note_record self track_idx) notes records ->
  notes_events (concat records) = note_block records.
Proof.
  intros HF. destruct HF as [| note r notes records Hr _]; [ reflexivity | ].
  destruct Hr as (pos & dur & vel & _ & _ & _ & _ & _ & _ & _ & ->).
  reflexivity.
Qed.

End NoteRecords.

(** C2 (as amended): [_write_pattern] returns exactly when the pattern index
    and the pattern name can be encoded and every note of the clip has a
    note record; it then appends the pattern-start and pattern-name events
    and, if and only if the clip has a note, one note-block event (203) whose
    payload is the concatenation of the 24-byte records of the notes in clip
    order.  A record holds the tick position at bytes 0-3, zero flags at
    4-5, the channel index at 6-7, the tick duration at 8-11, the MIDI key at
    12, the pan 64 at 16 and the velocity byte [int(note.velocity * 127)]
    (truncated, not rounded) at 17; its other bytes are zero. *)
Theorem write_pattern_note_block (self : FLStudioWriter.t) (data : bytes)
  (pattern_idx track_idx : Z) (track_name : str) (clip : Clip) (out : bytes) :
  FLStudioWriter._write_pattern self data pattern_idx track_idx track_name clip = Ok out
  <-> exists encoded records,
      0 <= pattern_idx + 1 < 65536
      /\ encode_utf16le (FLStudioWriter.pattern_name_of track_name clip) = Ok encoded
      /\ Forall2 (is_note_record self track_idx) (Clip.notes clip) records
      /\ Forall (fun record => length record = 24%nat) records
      /\ out = data
               ++ stream_bytes
                    ([mk_event NEW_PAT (Scalar (le_bytes 2 (pattern_idx + 1)));
                      mk_event PAT_NAME (Blob (encoded ++ [0; 0]))]
                     ++ note_block records).
Proof.
  rewrite write_pattern_events. split.
  - intros H. bind_inv H events Ee. inversion H; subst out; clear H.
    apply pattern_events_shape in Ee as (encoded & note_data & Hk & Hn & Hb & ->).
    apply notes_block_records in Hb as (records & HF & ->).
    exists encoded, records. repeat split; try assumption; try lia.
    + clear - HF. induction HF as [| note r notes records Hr _ IH]; constructor.
      * destruct Hr as (pos & dur & vel & _ & _ & _ & _ & _ & _ & _ & ->).
        reflexivity.
      * exact IH.
    + now rewrite (concat_note_records_nil _ _ _ _ HF).
  - intros (encoded & records & Hk & Hn & HF & _ & ->).
    unfold EventView.pattern_events.
    rewrite (pack_H_ok (pattern_idx + 1)) by lia. cbn [bind].
    rewrite Hn. cbn [bind].
    assert (Hb : FLStudioWriter.notes_block self track_idx (Clip.notes clip)
                 = Ok (concat records)).
    { apply notes_block_records. exists records. split; [ assumption | reflexivity ]. }
    rewrite Hb. cbn [bind].
    now rewrite (concat_note_records_nil _ _ _ _ HF).
Qed.

(** The clip of the end-to-end scenario: two notes, two records. *)
Lemma write_pattern_note_block_witness :
  exists out encoded records,
    FLStudioWriter._write_pattern (FLStudioWriter.mk 96 false) [] 0 0 (lit "Lead")
      scenario_clip = Ok out
    /\ Forall2 (is_note_record (FLStudioWriter.mk 96 false) 0)
         (Clip.notes scenario_clip) records
    /\ out = stream_bytes
               ([mk_event NEW_PAT (Scalar [1; 0]);
                 mk_event PAT_NAME (Blob (encoded ++ [0; 0]))]
                ++ note_block records).
Proof.
  assert (Hok : is_ok (FLStudioWriter._write_pattern (FLStudioWriter.mk 96 false) []
                         0 0 (lit "Lead") scenario_clip) = true)
    by (vm_compute; reflexivity).
  destruct (FLStudioWriter._write_pattern (FLStudioWriter.mk 96 false) [] 0 0
              (lit "Lead") scenario_clip) as [out | e] eqn:E; [ | discriminate ].
  destruct (proj1 (write_pattern_note_block (FLStudioWriter.mk 96 false) [] 0 0
                     (lit "Lead") scenario_clip out) E)
    as (encoded & records & _ & _ & HF & _ & Hout).
  exists out, encoded, records. repeat split; assumption.
Defined.

(** C2 (as stated) fails: the second note of the end-to-end scenario has
    velocity 0.5; its record carries the velocity byte 63, where
    [round(0.5 * 127)] is 64. *)
Lemma velocity_byte_is_not_round :
  FLStudioWriter.note_record (FLStudioWriter.mk 96 false) 0 (Note.mk 2 0.5 64 0.5)
  = Ok (note_layout 192 0 48 64 63)
  /\ nth 17 (note_layout 192 0 48 64 63) 0 = 63
  /\ py_round (0.5 * 127)%float = Ok 64.
Proof. repeat split; vm_compute; reflexivity. Qed.

(** ** What a write changes in the project *)

Section WriteFrame.
Import FLStudioWriter.

Lemma str_eqb_eq (a b : str) : str_eqb a b = true -> a = b.
Proof.
  revert b. induction a as [| x a IH]; intros [| y b]; simpl; try discriminate.
  - reflexivity.
  - intros H. apply andb_true_iff in H as [Hxy Hab].
    apply Z.eqb_eq in Hxy. apply IH in Hab. congruence.
Qed.

(** What [_normalize_track_plugins] does to a track. *)
Lemma normalize_racks_effect (track : Track) (racks : list Rack) :
  Track.instrument track = None ->
  (forall rack, In rack racks -> In rack (Track.racks track)) ->
  normalize_racks track racks = track \/ promoted track (normalize_racks track racks).
Proof.
  intros Hnone. induction racks as [| rack racks IH]; intros Hin; simpl.
  - now left.
  - assert (Hrest : forall r, In r racks -> In r (Track.racks track))
      by (intros r Hr; apply Hin; now right).
    destruct (Rack.is_drum_rack rack) eqn:Edrum; [ now apply IH | ].
    destruct (Rack.rack_type rack) as [ty |] eqn:Ety; [ | now apply IH ].
    destruct (Rack.plugins rack) as [| first others] eqn:Epl; [ now apply IH | ].
    destruct (str_eqb ty (lit "InstrumentGroupDevice")) eqn:Eeq; [ | now apply IH ].
    right. split; [ assumption | ]. exists rack, first, others.
    apply str_eqb_eq in Eeq. subst ty.
    repeat split; try assumption. apply Hin. now left.
Qed.

Lemma normalize_effect (track : Track) :
  _normalize_track_plugins track = track
  \/ promoted track (_normalize_track_plugins track).
Proof.
  unfold _normalize_track_plugins.
  destruct (Track.instrument track) eqn:Ei; [ now left | ].
  apply normalize_racks_effect; auto.
Qed.

End WriteFrame.

(** C10 (as amended): a write never changes the project's own fields, nor
    the name, color, mixer values, clips, notes or racks of any track.  What
    it may change is the instrument and the effect list of a track: each
    track is left as it was or as [_normalize_track_plugins] makes it, which
    changes a track only by promoting the plugins of an instrument rack when
    the track has no instrument.  A write that returns normally has
    normalized every track; a write through the alternate backend changes
    nothing. *)
Theorem write_changes_only_promoted_plugins
  (backend : FLStudioWriter.t -> TransProj -> result bytes)
  (self self' : FLStudioWriter.t) (transproj transproj' : TransProj)
  (file : result bytes) :
  FLStudioWriter.write backend self transproj = (self', transproj', file) ->
  TransProj.name transproj' = TransProj.name transproj
  /\ TransProj.tempo transproj' = TransProj.tempo transproj
  /\ TransProj.ppq transproj' = TransProj.ppq transproj
  /\ TransProj.ableton_version transproj' = TransProj.ableton_version transproj
  /\ TransProj.is_session_view transproj' = TransProj.is_session_view transproj
  /\ Forall2
       (fun track track' =>
          same_but_plugins track track'
          /\ (track' = track \/ promoted track track')
          /\ (Track.instrument track <> None -> track' = track))
       (TransProj.tracks transproj) (TransProj.tracks transproj')
  /\ (FLStudioWriter.use_pyflp self = true -> transproj' = transproj)
  /\ (FLStudioWriter.use_pyflp self = false -> is_ok file = true ->
      TransProj.tracks transproj'
      = map FLStudioWriter._normalize_track_plugins (TransProj.tracks transproj)).
Proof.
  unfold FLStudioWriter.write. intros H.
  assert (Hsame : forall tracks : list Track,
             Forall2 (fun track track' =>
                        same_but_plugins track track'
                        /\ (track' = track \/ promoted track track')
                        /\ (Track.instrument track <> None -> track' = track))
                     tracks tracks).
  { induction tracks; constructor; [ | assumption ].
    repeat split. now left. }
  destruct (FLStudioWriter.use_pyflp self) eqn:Epy; cbn [FLStudioWriter.use_pyflp] in H.
  - inversion H; subst. repeat split; try apply Hsame. discriminate.
  - destruct (FLStudioWriter._build_flp_binary _ transproj) as [p data] eqn:Eb.
    inversion H; subst; clear H.
    unfold FLStudioWriter._build_flp_binary in Eb.
    destruct (FLStudioWriter.write_header _ transproj) as [header |];
      [ | inversion Eb; subst; repeat split; try apply Hsame; discriminate ].
    destruct (FLStudioWriter.write_globals header transproj) as [globals |];
      [ | inversion Eb; subst; repeat split; try apply Hsame; discriminate ].
    destruct (FLStudioWriter.write_channels globals 0 (TransProj.tracks transproj))
      as [tracks r] eqn:Ec.
    inversion Eb; subst; clear Eb. cbn [FLStudioWriter.with_tracks].
    repeat match goal with |- _ /\ _ => split end; try reflexivity.
    + apply write_channels_frame in Ec.
      eapply Forall2_impl; [ | exact Ec ].
      intros track track' [-> | ->].
      * repeat split. now left.
      * split; [ apply normalize_frame | ]. split.
        -- destruct (normalize_effect track) as [E | E]; [ left | right ]; assumption.
        -- intros Hi. unfold FLStudioWriter._normalize_track_plugins.
           destruct (Track.instrument track); [ reflexivity | contradiction ].
    + discriminate.
    + intros _ Hok. destruct r as [data |]; [ | discriminate ].
      simpl. now apply write_channels_events in Ec as [-> _].
Qed.

(** The end-to-end scenario is written and left as it was. *)
Lemma write_changes_only_promoted_plugins_witness :
  fst (fst (FLStudioWriter.write no_backend (FLStudioWriter.init false) scenario_project))
  = FLStudioWriter.mk 96 false
  /\ TransProj.tracks
       (snd (fst (FLStudioWriter.write no_backend (FLStudioWriter.init false)
                    scenario_project)))
     = map FLStudioWriter._normalize_track_plugins (TransProj.tracks scenario_project).
Proof.
  destruct (FLStudioWriter.write no_backend (FLStudioWriter.init false) scenario_project)
    as [[self' transproj'] file] eqn:E.
  split.
  - apply (f_equal (fun x => fst (fst x))) in E. simpl in E. rewrite <- E.
    vm_compute. reflexivity.
  - apply (write_changes_only_promoted_plugins _ _ _ _ _ _ E).
    + reflexivity.
    + apply (f_equal snd) in E. simpl in E. rewrite <- E. vm_compute. reflexivity.
Defined.

(** C10 (as stated) fails: a track with no instrument and an instrument rack
    of two devices has, after the write, the first device as its instrument
    and the second among its effects. *)
Lemma write_changes_the_project :
  map Track.instrument (TransProj.tracks rack_project) = [None]
  /\ map Track.effects (TransProj.tracks rack_project) = [[]]
  /\ map Track.instrument
       (TransProj.tracks
          (snd (fst (FLStudioWriter.write no_backend (FLStudioWriter.init false)
                       rack_project))))
     = [Some (Plugin.mk (lit "Operator") (lit "Ableton") true None None [])]
  /\ map Track.effects
       (TransProj.tracks
          (snd (fst (FLStudioWriter.write no_backend (FLStudioWriter.init false)
                       rack_project))))
     = [[Plugin.mk (lit "Analog") (lit "Ableton") true None None []]]
  /\ is_ok (snd (FLStudioWriter.write no_backend (FLStudioWriter.init false)
                   rack_project)) = true.
Proof. repeat split; vm_compute; reflexivity. Qed.

(** ** The plugin state of a channel *)

(** C5 (where the code departs from it): a track that has no instrument and
    whose racks hold no drum rack gets a channel record of exactly the four
    fixed events -- no plugin-state event -- whether or not it carries MIDI
    content: the rack branch is taken and the later branches, the default
    oscillator among them, are never tried. *)
Theorem rack_without_pads_leaves_no_generator (data : bytes) (idx : Z) (track : Track)
  (out : bytes) :
  Track.instrument track = None ->
  Track.racks track <> [] ->
  find Rack.is_drum_rack (Track.racks track) = None ->
  FLStudioWriter._write_channel data idx track = Ok out ->
  exists i name vol pan,
    out = data ++ stream_bytes
                    [mk_event NEW_CHAN (Scalar i); mk_event 203 (Blob name);
                     mk_event 33 (Scalar [vol]); mk_event 34 (Scalar [pan])].
Proof.
  intros Hi Hr Hd H. rewrite write_channel_events in H.
  bind_inv H events Ee. inversion H; subst out; clear H.
  unfold EventView.channel_events in Ee.
  bind_inv Ee i Ei. bind_inv Ee encoded Een. bind_inv Ee vol Ev.
  bind_inv Ee volb Evb. bind_inv Ee pan Ep. bind_inv Ee panb Epb.
  bind_inv Ee selected Es. inversion Ee; subst events; clear Ee.
  unfold EventView.selected_plugin_state in Es. rewrite Hi in Es.
  destruct (Track.racks track) as [| rack racks]; [ contradiction | ].
  rewrite Hd in Es. inversion Es; subst selected.
  exists i, (encoded ++ [0; 0]), volb, panb. reflexivity.
Qed.

(** The MIDI track with an effect rack: four events and no generator, where
    the same track without the rack gets the default oscillator. *)
Lemma rack_without_pads_leaves_no_generator_witness :
  Track.has_midi effect_rack_track = true
  /\ (exists out i name vol pan,
         FLStudioWriter._write_channel [] 0 effect_rack_track = Ok out
         /\ out = [] ++ stream_bytes
                          [mk_event NEW_CHAN (Scalar i); mk_event 203 (Blob name);
                           mk_event 33 (Scalar [vol]); mk_event 34 (Scalar [pan])])
  /\ FLStudioWriter._write_channel [] 0 plain_midi_track
     = Ok (stream_bytes
             [mk_event NEW_CHAN (Scalar [0; 0]);
              mk_event 203 (Blob [75; 0; 101; 0; 121; 0; 115; 0; 0; 0]);
              mk_event 33 (Scalar [100]); mk_event 34 (Scalar [64]);
              mk_event CHAN_PLUGIN
                (Blob (blit "3OSC"
                       ++ [1; 0; 0; 0; 1; 0; 100; 64; 0; 0; 0; 64; 0; 0; 0; 64]))]).
Proof.
  split; [ reflexivity | ]. split.
  - assert (Hok : is_ok (FLStudioWriter._write_channel [] 0 effect_rack_track) = true)
      by (vm_compute; reflexivity).
    destruct (FLStudioWriter._write_channel [] 0 effect_rack_track) as [out | e] eqn:E;
      [ | discriminate ].
    exists out.
    destruct (rack_without_pads_leaves_no_generator [] 0 effect_rack_track out)
      as (i & name & vol & pan & Hout); try reflexivity; try discriminate.
    + exact E.
    + exists i, name, vol, pan. split; [ reflexivity | exact Hout ].
  - vm_compute. reflexivity.
Defined.

(** ** The clip search of the parser *)

(** C6 (where the code departs from it): a clip element without a name,
    sitting in a clip slot, is collected by the slot pass under the default
    name "MIDI Clip", and again by the fallback sweep, which looks for a clip
    named "" and finds none: one clip element, two Clips of the same name.
    With a name the sweep skips it. *)
Theorem nameless_slot_clip_is_collected_twice
  (py_float : str -> result float) (py_int : str -> result Z) :
  length (ET.findall (slot_track nameless_clip) "MidiClip" []) = 1%nat
  /\ AbletonParser._parse_track_clips py_float py_int (slot_track nameless_clip)
     = Ok [Clip.mk (lit "MIDI Clip") 0 4 [] [] true (Some 0);
           Clip.mk (lit "MIDI Clip") 0 4 [] [] true None]
  /\ AbletonParser._get_clip_name nameless_clip = []
  /\ AbletonParser._parse_track_clips py_float py_int (slot_track named_clip)
     = Ok [Clip.mk (lit "Intro") 0 4 [] [] true (Some 0)].
Proof.
  repeat match goal with |- _ /\ _ => split end; vm_compute; reflexivity.
Qed.
